(** * Socket_Zoom relay server: a shallow embedding of [server.py]

    The development follows [src/server.py] (class [LANCommServer]), with
    the peer's side of the wire from [src/client_network.py] and the
    private-message filter of [src/client_gui.py].

    - Python [bytes] are [list byte]; Python [str] is [string], read as the
      UTF-8 encoding of the text (so [bytes.decode('utf-8')] is the identity
      on well-formed input and raises otherwise).
    - A decoded control message is a [json] value ([json.loads]); numbers are
      integers (floating-point JSON numbers are outside the model).
    - [str.lower] and [str.strip] are the functions of the Python library:
      the server and the client are parametrised by them ([PyStr]); their
      restriction to ASCII is used to evaluate examples.
    - An identity is whatever [data['username']] of a [register] frame is,
      provided it can be a dict key ([ident]): a name, or [None], a boolean
      or a number. Keys are compared as Python compares them ([py_eq]).
    - [self.clients] is an insertion-ordered Python dict: an association list
      with the dict's update discipline ([dict_set], [dict_del]).
      [self.shared_files] is only looked up by key: a [gmap].
    - Socket writes are recorded as a list of effects, in program order.
      A raised exception is [None] in the option monad.
    - A handler thread meets events one at a time ([step]); the
      [start_presentation] branch is also given statement by statement,
      under its lock, for two threads and any schedule
      ([start_step], [run_schedule]). *)

From Stdlib Require Import ZArith NArith Lia List.
From Stdlib.Strings Require Import Ascii String Byte.
From Stdlib Require Import DecimalString.
From stdpp Require Import base option list gmap strings.
From Equations Require Import Equations.

Local Open Scope string_scope.
Local Open Scope list_scope.
Local Open Scope nat_scope.

(** ** Bytes and [struct.pack('I', _)] *)

Abbreviation bytes := (list byte).

(** [sys.byteorder] of the host the server runs on: the format ['I'] of
    [struct] is the native 4-byte unsigned integer. *)
Inductive byteorder := little | big.

Definition byte_of_N (n : N) : byte :=
  default x00 (Byte.of_N (n mod 256)%N).

Definition u32_le (n : N) : bytes :=
  [byte_of_N n; byte_of_N (n / 256); byte_of_N (n / 65536);
   byte_of_N (n / 16777216)].

Definition le_u32 (b : bytes) : N :=
  match b with
  | [b0; b1; b2; b3] =>
      (Byte.to_N b0 + 256 * Byte.to_N b1 + 65536 * Byte.to_N b2
       + 16777216 * Byte.to_N b3)%N
  | _ => 0%N
  end.

(** [struct.pack('I', n)]; [None] is [struct.error] (argument out of range). *)
Definition struct_pack_I (bo : byteorder) (n : N) : option bytes :=
  if (n <? 4294967296)%N
  then Some (match bo with little => u32_le n | big => rev (u32_le n) end)
  else None.

(** [struct.unpack('I', b)[0]]; [None] is [struct.error] (wrong buffer size). *)
Definition struct_unpack_I (bo : byteorder) (b : bytes) : option N :=
  if (length b =? 4)%nat
  then Some (le_u32 (match bo with little => b | big => rev b end))
  else None.

(** ** The TCP stream seen by [sock.recv] *)

(** The bytes still to be delivered on a connection, as the segments in which
    they arrive; the empty list is a connection the peer has closed. *)
Definition Stream := list bytes.

(** [sock.recv(bufsize)]: at most [bufsize] bytes of the next segment,
    [b''] once the peer has closed. *)
Definition recv (sock : Stream) (bufsize : nat) : bytes * Stream :=
  match sock with
  | [] => ([], [])
  | seg :: rest =>
      if (length seg <=? bufsize)%nat then (seg, rest)
      else (take bufsize seg, drop bufsize seg :: rest)
  end.

(** The loop of [recv_exact] (lines 412-418), started with [data = b''].
    Every turn of the loop appends a non-empty packet, so [n - len(data)]
    decreases. *)
Equations? recv_exact_loop (sock : Stream) (data : bytes) (n : nat)
  : option bytes * Stream by wf (n - length data) lt :=
  recv_exact_loop sock data n with lt_dec (length data) n => {
    | right _ := (Some data, sock);
    | left _ with recv sock (n - length data) => {
        | ([], sock') := (None, sock');
        | (b :: packet, sock') :=
            recv_exact_loop sock' (data ++ b :: packet) n } }.
Proof. rewrite length_app. simpl. lia. Qed.

Definition recv_exact (sock : Stream) (n : nat) : option bytes * Stream :=
  recv_exact_loop sock [] n.

(** Lines 384-385 of [send_message]: the bytes handed to [sock.sendall] for
    an already serialised payload. [None]: [struct.pack] raised, nothing is
    sent ([send_message] returns [False]). *)
Definition frame_bytes (bo : byteorder) (data : bytes) : option bytes :=
  length_ ← struct_pack_I bo (N.of_nat (length data));
  Some (length_ ++ data).

(** Lines 395-404 of [recv_message]: the payload of the next frame, before
    [json.loads]. [None] is the function's [return None]. *)
Definition recv_frame (bo : byteorder) (sock : Stream) : option bytes * Stream :=
  match recv_exact sock 4 with
  | (None, sock1) => (None, sock1)
  | (Some [], sock1) => (None, sock1)
  | (Some length_data, sock1) =>
      match struct_unpack_I bo length_data with
      | None => (None, sock1)
      | Some length_ =>
          match recv_exact sock1 (N.to_nat length_) with
          | (None, sock2) => (None, sock2)
          | (Some [], sock2) => (None, sock2)
          | (Some data, sock2) => (Some data, sock2)
          end
      end
  end.

(** [send_message] and [recv_message] on the wire, over the JSON codec of the
    Python library ([json.dumps(_).encode('utf-8')] and
    [json.loads(_.decode('utf-8'))], the latter [None] when it raises). *)
Section wire.
Context {message : Type}.
Variable json_dumps : message → bytes.
Variable json_loads : bytes → option message.

Definition send_message_wire (bo : byteorder) (m : message) : option bytes :=
  frame_bytes bo (json_dumps m).

Definition recv_message (bo : byteorder) (sock : Stream)
  : option message * Stream :=
  match recv_frame bo sock with
  | (Some data, sock') => (json_loads data, sock')
  | (None, sock') => (None, sock')
  end.
End wire.

(** ** [bytes.decode('utf-8')] *)

Definition in_range (lo hi c : N) : bool := ((lo <=? c) && (c <=? hi))%N.

(** Strict UTF-8, as Python decodes it: no overlong forms, no surrogates,
    nothing above U+10FFFF. [need] continuation bytes are still expected and
    the next one must lie in [lo..hi]. *)
Fixpoint utf8_valid_from (need : nat) (lo hi : N) (b : bytes) : bool :=
  match b with
  | [] => (need =? 0)%nat
  | x :: rest =>
      let c := Byte.to_N x in
      match need with
      | O =>
          if (c <? 128)%N then utf8_valid_from 0 128 191 rest
          else if in_range 194 223 c then utf8_valid_from 1 128 191 rest
          else if (c =? 224)%N then utf8_valid_from 2 160 191 rest
          else if (c =? 237)%N then utf8_valid_from 2 128 159 rest
          else if in_range 225 239 c then utf8_valid_from 2 128 191 rest
          else if (c =? 240)%N then utf8_valid_from 3 144 191 rest
          else if in_range 241 243 c then utf8_valid_from 3 128 191 rest
          else if (c =? 244)%N then utf8_valid_from 3 128 143 rest
          else false
      | S k => in_range lo hi c && utf8_valid_from k 128 191 rest
      end
  end.

(** [b.decode('utf-8')]; [None] is [UnicodeDecodeError]. *)
Definition decode_utf8 (b : bytes) : option string :=
  if utf8_valid_from 0 128 191 b then Some (string_of_list_byte b) else None.

(** ** Strings: [str.lower], [str.strip], [strftime] *)

(** [str.lower] and [str.strip] are functions of the Python library, defined
    by the Unicode tables. The development takes them as parameters, with
    the one fact about them that it uses: lowering never empties a string. *)
Class PyStr := {
  str_lower : string → string;
  str_strip : string → string;
  str_lower_empty : ∀ s, str_lower s = str_lower "" → s = "" }.

(** Their restriction to ASCII text, to evaluate examples. *)
Definition ascii_lower (a : ascii) : ascii :=
  let n := nat_of_ascii a in
  if ((65 <=? n) && (n <=? 90))%nat then ascii_of_nat (n + 32) else a.

Fixpoint lower_ascii (s : string) : string :=
  match s with
  | EmptyString => EmptyString
  | String a s' => String (ascii_lower a) (lower_ascii s')
  end.

Definition is_space (a : ascii) : bool :=
  let n := nat_of_ascii a in
  (((9 <=? n) && (n <=? 13)) || ((28 <=? n) && (n <=? 32)))%nat.

Fixpoint lstrip_ascii (s : string) : string :=
  match s with
  | EmptyString => EmptyString
  | String a s' => if is_space a then lstrip_ascii s' else s
  end.

Definition strip_ascii (s : string) : string :=
  String.rev (lstrip_ascii (String.rev (lstrip_ascii s))).

Definition ascii_str : PyStr.
Proof.
  refine {| str_lower := lower_ascii; str_strip := strip_ascii |}.
  intros [|a s]; [reflexivity|discriminate].
Defined.

(** The fields of [datetime.now()] that the server prints. *)
Record datetime := {
  year : nat; month : nat; day : nat;
  hour : nat; minute : nat; second : nat }.

(** The decimal digits of [n], zero-filled to [width] characters
    ([%02d], [%04d]). *)
Definition zfill (width : nat) (n : nat) : string :=
  let s := NilEmpty.string_of_uint (Nat.to_uint n) in
  String.concat "" (replicate (width - String.length s) "0") +:+ s.

(** [t.strftime('%H:%M:%S')] *)
Definition strftime_HMS (t : datetime) : string :=
  zfill 2 (hour t) +:+ ":" +:+ zfill 2 (minute t) +:+ ":" +:+ zfill 2 (second t).

(** [t.strftime('%Y-%m-%d %H:%M:%S')] *)
Definition strftime_YmdHMS (t : datetime) : string :=
  zfill 4 (year t) +:+ "-" +:+ zfill 2 (month t) +:+ "-" +:+ zfill 2 (day t)
  +:+ " " +:+ strftime_HMS t.

(** Valid time of day, as every [datetime] object has it. *)
Definition valid_time (t : datetime) : Prop :=
  hour t < 24 ∧ minute t < 60 ∧ second t < 60.

Definition is_digit (a : ascii) : bool :=
  let n := nat_of_ascii a in ((48 <=? n) && (n <=? 57))%nat.

(** A timestamp of the shape [dd:dd:dd]. *)
Definition wf_timestamp (s : string) : bool :=
  match list_ascii_of_string s with
  | [h1; h2; c1; m1; m2; c2; s1; s2] =>
      is_digit h1 && is_digit h2 && is_digit m1 && is_digit m2
      && is_digit s1 && is_digit s2
      && bool_decide (c1 = ":"%char) && bool_decide (c2 = ":"%char)
  | _ => false
  end.


Local Unset Elimination Schemes.
Inductive json :=
| JNull
| JBool (b : bool)
| JInt (z : Z)
| JStr (s : string)
| JArr (l : list json)
| JObj (kvs : list (string * json)).
Local Set Elimination Schemes.

(** Python truthiness of a decoded value ([if not msg], [x or '']). *)
Definition py_truthy (v : json) : bool :=
  match v with
  | JNull => false
  | JBool b => b
  | JInt z => negb (z =? 0)%Z
  | JStr s => negb (bool_decide (s = ""))
  | JArr l => negb (bool_decide (length l = 0))
  | JObj kvs => negb (bool_decide (length kvs = 0))
  end.

(** [msg.get(key)] on a decoded object; as [msg[key]], [None] is [KeyError]. *)
Fixpoint obj_get (kvs : list (string * json)) (key : string) : option json :=
  match kvs with
  | [] => None
  | (k, v) :: rest => if bool_decide (k = key) then Some v else obj_get rest key
  end.

(** [v == s] for a string literal [s]. *)
Definition tag_is (v : option json) (s : string) : bool :=
  match v with
  | Some (JStr t) => bool_decide (t = s)
  | _ => false
  end.

(** [tuple(v)]; [None] is [TypeError] (not iterable). A string iterates over
    its characters (exact for ASCII text), an object over its keys. *)
Definition py_tuple (v : json) : option (list json) :=
  match v with
  | JArr l => Some l
  | JStr s => Some (map (λ c, JStr (String c "")) (list_ascii_of_string s))
  | JObj kvs => Some (map (λ kv, JStr kv.1) kvs)
  | _ => None
  end.

(** The key under which a decoded value is stored in a Python dict:
    [True == 1] and [False == 0] collide with the integers, arrays and
    objects are unhashable ([None] is [TypeError]). *)
Definition fkey : Type := option (string + Z).

Definition dict_key (v : json) : option fkey :=
  match v with
  | JNull => Some None
  | JBool b => Some (Some (inr (if b then 1 else 0)%Z))
  | JInt z => Some (Some (inr z))
  | JStr s => Some (Some (inl s))
  | JArr _ | JObj _ => None
  end.

(** ** Identities *)

(** The values that can be the key of a Python dict: what the [username] of
    a [register] frame is once the registration has gone through, hence the
    local [username] of a handler and the keys of [self.clients]. Display
    names are strings; the code takes the other scalars as well. *)
Inductive ident :=
| IdNull
| IdBool (b : bool)
| IdInt (z : Z)
| IdStr (s : string).

#[global] Instance ident_eq_dec : EqDecision ident.
Proof. solve_decision. Defined.

Definition ident_json (u : ident) : json :=
  match u with
  | IdNull => JNull
  | IdBool b => JBool b
  | IdInt z => JInt z
  | IdStr s => JStr s
  end.

(** [None]: the value is unhashable, using it as a key is a [TypeError]. *)
Definition hashable (v : json) : option ident :=
  match v with
  | JNull => Some IdNull
  | JBool b => Some (IdBool b)
  | JInt z => Some (IdInt z)
  | JStr s => Some (IdStr s)
  | JArr _ | JObj _ => None
  end.

(** The dict key of an identity ([dict_key] of its value). *)
Definition ident_key (u : ident) : fkey :=
  match u with
  | IdNull => None
  | IdBool b => Some (inr (if b then 1 else 0)%Z)
  | IdInt z => Some (inr z)
  | IdStr s => Some (inl s)
  end.

(** [u == v] in Python: so [True == 1], and a string equals only itself. *)
Definition py_eq (u v : ident) : bool := bool_decide (ident_key u = ident_key v).

(** [str(u)], as an f-string prints it. *)
Definition py_str (u : ident) : string :=
  match u with
  | IdNull => "None"
  | IdBool true => "True"
  | IdBool false => "False"
  | IdInt z => NilEmpty.string_of_int (Z.to_int z)
  | IdStr s => s
  end.

(** ** Insertion-ordered dicts keyed by identities *)

(** A dict keeps its keys in the order of their first insertion and, when a
    key equal to a present one is assigned, keeps the key object that is
    already there. *)
Section dict.
Context {V : Type}.

(** [d.get(k)], [d[k]], [k in d] *)
Fixpoint dict_get (d : list (ident * V)) (k : ident) : option V :=
  match d with
  | [] => None
  | (k', v) :: rest => if py_eq k' k then Some v else dict_get rest k
  end.

(** [d[k] = v] *)
Fixpoint dict_set (d : list (ident * V)) (k : ident) (v : V)
  : list (ident * V) :=
  match d with
  | [] => [(k, v)]
  | (k', v') :: rest =>
      if py_eq k' k then (k', v) :: rest
      else (k', v') :: dict_set rest k v
  end.

(** [if k in d: del d[k]] *)
Fixpoint dict_del (d : list (ident * V)) (k : ident) : list (ident * V) :=
  match d with
  | [] => []
  | (k', v') :: rest =>
      if py_eq k' k then rest else (k', v') :: dict_del rest k
  end.

Definition dict_keys (d : list (ident * V)) : list ident := d.*1.
End dict.

(** ** Server state (lines 22-32) *)

(** A TCP socket object, named by a handle. *)
Definition Socket := nat.

(** The peer address [(host, port)] returned by [accept]. *)
Definition Addr : Type := string * nat.

(** One value of [self.clients]. The media addresses are [None] until the
    client registers them; afterwards they hold [tuple(msg['address'])]. *)
Record ClientInfo := {
  tcp_socket : Socket;
  address : Addr;
  video_addr : option (list json);
  audio_addr : option (list json) }.

(** One value of [self.shared_files]: the fields are stored as they came in
    the upload message ([data] is the base64 text of the blob). *)
Record FileInfo := {
  filename : json;
  size : json;
  data : json;
  uploader : ident;
  timestamp : string }.

(** [presenter] is [self.presenter]: Python's [None] is [IdNull]. *)
Record Server := {
  clients : list (ident * ClientInfo);
  presenter : ident;
  shared_files : gmap fkey FileInfo }.

Definition set_clients (srv : Server) (c : list (ident * ClientInfo)) : Server :=
  {| clients := c; presenter := presenter srv; shared_files := shared_files srv |}.

Definition set_presenter (srv : Server) (p : ident) : Server :=
  {| clients := clients srv; presenter := p; shared_files := shared_files srv |}.

Definition set_shared_files (srv : Server) (f : gmap fkey FileInfo) : Server :=
  {| clients := clients srv; presenter := presenter srv; shared_files := f |}.

Definition set_video_addr (info : ClientInfo) (a : list json) : ClientInfo :=
  {| tcp_socket := tcp_socket info; address := address info;
     video_addr := Some a; audio_addr := audio_addr info |}.

Definition set_audio_addr (info : ClientInfo) (a : list json) : ClientInfo :=
  {| tcp_socket := tcp_socket info; address := address info;
     video_addr := video_addr info; audio_addr := Some a |}.

(** The state built by [__init__]. *)
Definition init_server : Server :=
  {| clients := []; presenter := IdNull; shared_files := ∅ |}.

(** ** Sending (lines 380-389, 420-431) *)

(** A frame handed to a client's TCP socket, and a datagram handed to a UDP
    socket. A transport error on a send is swallowed by the code
    ([send_message] returns [False], the relays print and go on), so the
    effects are the sends attempted. *)
Inductive Effect := TcpSend (sock : Socket) (message : json).

Inductive UdpEffect := UdpSend (dest : list json) (datagram : bytes).

Definition send_message (sock : Socket) (message : json) : list Effect :=
  [TcpSend sock message].

(** [broadcast_message(message, exclude)]. The default [exclude=None] is
    [IdNull]; the test is [username != exclude], so an entry whose key is
    [None] is skipped by every broadcast. *)
Definition broadcast_message (srv : Server) (message : json)
    (exclude : ident) : list Effect :=
  flat_map
    (λ '(username, client_info),
       if negb (py_eq username exclude)
       then send_message (tcp_socket client_info) message else [])
    (clients srv).

Definition send_to_user (srv : Server) (username : ident) (message : json)
  : list Effect :=
  match dict_get (clients srv) username with
  | Some client_info => send_message (tcp_socket client_info) message
  | None => []
  end.

(** [list(self.clients.keys())] *)
Definition users (srv : Server) : json :=
  JArr (map ident_json (dict_keys (clients srv))).

(** ** The frames the server builds *)

Definition msg_chat (username : ident) (message : json) (ts : string) : json :=
  JObj [("type", JStr "chat"); ("username", ident_json username);
        ("message", message); ("timestamp", JStr ts)].

Definition msg_presentation_started (username : ident) : json :=
  JObj [("type", JStr "presentation_started"); ("username", ident_json username)].

Definition msg_presentation_stopped (username : ident) : json :=
  JObj [("type", JStr "presentation_stopped"); ("username", ident_json username)].

Definition msg_control_started : json :=
  JObj [("type", JStr "presentation_control"); ("status", JStr "started")].

Definition msg_control_denied (current : ident) : json :=
  JObj [("type", JStr "presentation_control"); ("status", JStr "denied");
        ("message", JStr (py_str current +:+ " is currently presenting"))].

Definition msg_screen_frame (username : ident) (frame_data : json) : json :=
  JObj [("type", JStr "screen_frame"); ("username", ident_json username);
        ("frame_data", frame_data)].

Definition msg_private_chat (from : ident) (to : string) (text : json)
    (ts : string) : json :=
  JObj [("type", JStr "private_chat"); ("from", ident_json from);
        ("to", JStr to); ("message", text); ("timestamp", JStr ts)].

Definition msg_not_online (to_user : string) : json :=
  JObj [("type", JStr "system");
        ("message", JStr ("User '" +:+ to_user +:+ "' is not online"));
        ("level", JStr "warning")].

Definition msg_file_available (file_id filename size : json) (uploader : ident)
  : json :=
  JObj [("type", JStr "file_available"); ("file_id", file_id);
        ("filename", filename); ("size", size);
        ("uploader", ident_json uploader)].

Definition msg_file_data (file_id filename size data : json) : json :=
  JObj [("type", JStr "file_data"); ("file_id", file_id);
        ("filename", filename); ("size", size); ("data", data)].

Definition msg_welcome (username : ident) (users : json) : json :=
  JObj [("type", JStr "welcome");
        ("message",
         JStr ("Welcome to LAN Communication Server, " +:+ py_str username
               +:+ "!"));
        ("users", users)].

Definition msg_user_joined (username : ident) (users : json) : json :=
  JObj [("type", JStr "user_joined"); ("username", ident_json username);
        ("users", users)].

Definition msg_user_left (username : ident) (users : json) : json :=
  JObj [("type", JStr "user_left"); ("username", ident_json username);
        ("users", users)].

(** ** The server and its handler threads: state *)

(** [handlers] maps the socket of every handler thread that is in its message
    loop (lines 127-132) to the thread's local [username]. *)
Record System := {
  server : Server;
  handlers : gmap Socket ident }.

Definition init_system : System := {| server := init_server; handlers := ∅ |}.

(** What a handler thread meets. Each is taken as one step: the registry,
    the presenter slot and the file store sit behind their locks, and a
    handler does one thing at a time. *)
Inductive Event :=
| Connect (sock : Socket) (addr : Addr) (data : option json)
    (** [accept] returns [sock]; [data] is the first [recv_message] *)
| Frame (sock : Socket) (msg : option json) (now : nat → datetime)
    (** [recv_message] in the loop of the handler of [sock] returns [msg] *).

(** Lines 91-93: the value that the first frame of a connection asks to
    register, [data['username']]. [data] is the result of [recv_message]
    ([None]: no frame). Without such a value the handler leaves with
    [username = None] and touches nothing: [data] is falsy, indexing it
    raises, or its type is not ['register']. *)
Definition register_request (data : option json) : option json :=
  match data with
  | Some (JObj m) =>
      if py_truthy (JObj m) && tag_is (obj_get m "type") "register"
      then obj_get m "username"
      else None
  | _ => None
  end.

(** Lines 95-122: the registry entry is written without looking for an
    earlier one, then the welcome, the presenter notice and the
    [user_joined] broadcast are sent. *)
Definition register (srv : Server) (client_socket : Socket) (addr : Addr)
    (username : ident) : Server * list Effect :=
  let srv' :=
    set_clients srv
      (dict_set (clients srv) username
         {| tcp_socket := client_socket; address := addr;
            video_addr := None; audio_addr := None |}) in
  (srv',
   send_message client_socket (msg_welcome username (users srv'))
   ++ match presenter srv' with
      | IdNull => []
      | current => send_message client_socket (msg_presentation_started current)
      end
   ++ broadcast_message srv' (msg_user_joined username (users srv')) username).

(** Lines 138-157, the [finally] block of a handler whose local [username]
    is set. [if username:] is false for [None], [False], [0] and the empty
    string: such a handler leaves its entry behind. *)
Definition teardown (srv : Server) (username : ident) : Server * list Effect :=
  if negb (py_truthy (ident_json username)) then (srv, [])
  else
    let srv1 := set_clients srv (dict_del (clients srv) username) in
    let '(srv2, out) :=
      if py_eq (presenter srv1) username
      then let srv2 := set_presenter srv1 IdNull in
           (srv2, broadcast_message srv2 (msg_presentation_stopped username) IdNull)
      else (srv1, []) in
    (srv2, out ++ broadcast_message srv2 (msg_user_left username (users srv2)) IdNull).

(** ** [process_message] (lines 166-318) and the handler loop *)

Section server.
Context {PS : PyStr}.

(** Lines 249-252 over [self.clients.keys()]: the first key that equals
    [to_user] up to case. [None]: the [AttributeError] of [key.lower()] on a
    key that is not a string, met before a match. *)
Fixpoint lookup_case_insensitive (keys : list ident) (to_user : string)
  : option (option string) :=
  match keys with
  | [] => Some None
  | IdStr key :: rest =>
      if bool_decide (str_lower key = str_lower to_user) then Some (Some key)
      else lookup_case_insensitive rest to_user
  | _ :: _ => None
  end.

(** Line 239: [(msg.get('to') or '').strip()]; [None] is the
    [AttributeError] of [.strip()] on a value that is not a string. *)
Definition get_to_user (m : list (string * json)) : option string :=
  match obj_get m "to" with
  | None => Some (str_strip "")
  | Some v =>
      if py_truthy v
      then match v with JStr s => Some (str_strip s) | _ => None end
      else Some (str_strip "")
  end.

(** One call of [process_message(username, msg)]. [now k] is the value of the
    [k]-th call of [datetime.now()] made during it. [None]: an exception
    leaves the function; every such exception is raised before the first
    state change or send of the call. *)
Definition process_message (now : nat → datetime) (srv : Server)
    (username : ident) (msg : json) : option (Server * list Effect) :=
  match msg with
  | JObj m =>
    let msg_type := obj_get m "type" in
    if tag_is msg_type "chat" then
      message ← obj_get m "message";
      Some (srv, broadcast_message srv
                   (msg_chat username message (strftime_HMS (now 0))) IdNull)
    else if tag_is msg_type "video_register" then
      match dict_get (clients srv) username with
      | Some info =>
          a ← obj_get m "address" ≫= py_tuple;
          Some (set_clients srv
                  (dict_set (clients srv) username (set_video_addr info a)), [])
      | None => Some (srv, [])
      end
    else if tag_is msg_type "audio_register" then
      match dict_get (clients srv) username with
      | Some info =>
          a ← obj_get m "address" ≫= py_tuple;
          Some (set_clients srv
                  (dict_set (clients srv) username (set_audio_addr info a)), [])
      | None => Some (srv, [])
      end
    else if tag_is msg_type "start_presentation" then
      match presenter srv with
      | IdNull =>
          let srv' := set_presenter srv username in
          Some (srv',
                broadcast_message srv' (msg_presentation_started username) IdNull
                ++ send_to_user srv' username msg_control_started)
      | current =>
          Some (srv, send_to_user srv username (msg_control_denied current))
      end
    else if tag_is msg_type "stop_presentation" then
      if py_eq (presenter srv) username then
        let srv' := set_presenter srv IdNull in
        Some (srv',
              broadcast_message srv' (msg_presentation_stopped username) IdNull)
      else Some (srv, [])
    else if tag_is msg_type "screen_frame" then
      if py_eq (presenter srv) username then
        frame_data ← obj_get m "frame_data";
        Some (srv, broadcast_message srv
                     (msg_screen_frame username frame_data) IdNull)
      else Some (srv, [])
    else if tag_is msg_type "private_chat" then
      to_user ← get_to_user m;
      let text := default (JStr "") (obj_get m "message") in
      if bool_decide (to_user = "") || bool_decide (IdStr to_user = username)
      then Some (srv, [])
      else
        canonical_to ← lookup_case_insensitive (dict_keys (clients srv)) to_user;
        match canonical_to with
        | Some key =>
            if bool_decide (key = "") then
              Some (srv,
                    send_to_user srv username (msg_not_online to_user)
                    ++ send_to_user srv username
                         (msg_private_chat username to_user text
                            (strftime_HMS (now 0))))
            else
              Some (srv,
                    broadcast_message srv
                      (msg_private_chat username key text
                         (strftime_HMS (now 0))) IdNull
                    ++ send_to_user srv username
                         (msg_private_chat username key text
                            (strftime_HMS (now 1))))
        | None =>
            Some (srv,
                  send_to_user srv username (msg_not_online to_user)
                  ++ send_to_user srv username
                       (msg_private_chat username to_user text
                          (strftime_HMS (now 0))))
        end
    else if tag_is msg_type "file_upload" then
      file_id ← obj_get m "file_id";
      filename ← obj_get m "filename";
      size ← obj_get m "size";
      data ← obj_get m "data";
      key ← dict_key file_id;
      let info := {| filename := filename; size := size; data := data;
                     uploader := username;
                     timestamp := strftime_YmdHMS (now 0) |} in
      let srv' := set_shared_files srv (<[key := info]> (shared_files srv)) in
      Some (srv',
            broadcast_message srv'
              (msg_file_available file_id filename size username) IdNull)
    else if tag_is msg_type "file_download" then
      file_id ← obj_get m "file_id";
      key ← dict_key file_id;
      match shared_files srv !! key with
      | Some file_info =>
          Some (srv,
                send_to_user srv username
                  (msg_file_data file_id (filename file_info) (size file_info)
                     (data file_info)))
      | None => Some (srv, [])
      end
    else Some (srv, [])
  | _ => None
  end.

(** [None]: the event cannot happen in this state ([sock] is the socket of
    another live handler, or of none). A requested identity that cannot be a
    dict key raises at line 96: nothing is registered and nothing is sent. *)
Definition step (sys : System) (ev : Event) : option (System * list Effect) :=
  match ev with
  | Connect sock addr data =>
      match handlers sys !! sock with
      | Some _ => None
      | None =>
          match register_request data ≫= hashable with
          | Some username =>
              let '(srv', out) := register (server sys) sock addr username in
              Some ({| server := srv';
                       handlers := <[sock := username]> (handlers sys) |}, out)
          | None => Some (sys, [])
          end
      end
  | Frame sock msg now =>
      username ← handlers sys !! sock;
      let leave :=
        let '(srv', out) := teardown (server sys) username in
        Some ({| server := srv'; handlers := delete sock (handlers sys) |}, out) in
      match msg with
      | Some m =>
          if py_truthy m then
            match process_message now (server sys) username m with
            | Some (srv', out) =>
                Some ({| server := srv'; handlers := handlers sys |}, out)
            | None => leave
            end
          else leave
      | None => leave
      end
  end.

(** States reached from [init_system] by events that [ok] admits. *)
Inductive reachable (ok : System → Event → Prop) : System → Prop :=
| reach_init : reachable ok init_system
| reach_step sys ev sys' out :
    reachable ok sys → ok sys ev → step sys ev = Some (sys', out) →
    reachable ok sys'.

(** Running a list of events, collecting what is sent. *)
Fixpoint run (sys : System) (evs : list Event) : option (System * list Effect) :=
  match evs with
  | [] => Some (sys, [])
  | ev :: evs' =>
      '(sys1, out1) ← step sys ev;
      '(sys2, out2) ← run sys1 evs';
      Some (sys2, out1 ++ out2)
  end.

End server.


(** Every registration names an identity that is truthy (so that its
    handler cleans up after itself) and not in the registry. *)
Definition fresh_registration (sys : System) (ev : Event) : Prop :=
  match ev with
  | Connect _ _ data =>
      match register_request data ≫= hashable with
      | Some username =>
          py_truthy (ident_json username) = true
          ∧ dict_get (clients (server sys)) username = None
      | None => True
      end
  | Frame _ _ _ => True
  end.


(** ** The [start_presentation] branch under its lock (lines 194-213) *)

(** The statements of the branch that a handler thread can be at. *)
Inductive start_pc :=
| AtWith        (** line 196, [with self.presenter_lock:] *)
| AtTest        (** line 197, [if self.presenter is None:] *)
| AtAssign      (** line 198, [self.presenter = username] *)
| AtBroadcast   (** lines 199-202, [broadcast_message] *)
| AtAck         (** lines 203-206, [send_to_user], started *)
| AtDenied      (** lines 209-213, [send_to_user], denied *)
| AtRelease     (** the end of the [with] block *)
| Finished.

(** What the handler threads share: the server object, [presenter_lock]
    (a [threading.Lock]) and the frames sent so far. *)
Record Shared := {
  sh_server : Server;
  sh_locked : bool;
  sh_out : list Effect }.

(** One statement of the thread of [username]. [None]: the thread cannot
    move (it waits for the lock, or has left the branch). *)
Definition start_step (username : ident) (pc : start_pc) (sh : Shared)
  : option (start_pc * Shared) :=
  let srv := sh_server sh in
  match pc with
  | AtWith =>
      if sh_locked sh then None
      else Some (AtTest, {| sh_server := srv; sh_locked := true;
                            sh_out := sh_out sh |})
  | AtTest =>
      Some (match presenter srv with IdNull => AtAssign | _ => AtDenied end, sh)
  | AtAssign =>
      Some (AtBroadcast, {| sh_server := set_presenter srv username;
                            sh_locked := sh_locked sh; sh_out := sh_out sh |})
  | AtBroadcast =>
      Some (AtAck,
            {| sh_server := srv; sh_locked := sh_locked sh;
               sh_out := sh_out sh
                 ++ broadcast_message srv (msg_presentation_started username)
                      IdNull |})
  | AtAck =>
      Some (AtRelease,
            {| sh_server := srv; sh_locked := sh_locked sh;
               sh_out := sh_out sh
                 ++ send_to_user srv username msg_control_started |})
  | AtDenied =>
      Some (AtRelease,
            {| sh_server := srv; sh_locked := sh_locked sh;
               sh_out := sh_out sh
                 ++ send_to_user srv username
                      (msg_control_denied (presenter srv)) |})
  | AtRelease =>
      Some (Finished, {| sh_server := srv; sh_locked := false;
                         sh_out := sh_out sh |})
  | Finished => None
  end.

(** Two handler threads in the branch, for [u1] and [u2], and the shared
    state. *)
Definition Config : Type := start_pc * start_pc * Shared.

(** The scheduler gives a turn to the first ([true]) or to the second
    thread; a thread that cannot move stays where it is. *)
Definition sched_step (u1 u2 : ident) (c : Config) (turn : bool) : Config :=
  let '(pc1, pc2, sh) := c in
  if turn
  then match start_step u1 pc1 sh with
       | Some (pc1', sh') => (pc1', pc2, sh')
       | None => c
       end
  else match start_step u2 pc2 sh with
       | Some (pc2', sh') => (pc1, pc2', sh')
       | None => c
       end.

Definition run_schedule (u1 u2 : ident) (c : Config) (schedule : list bool)
  : Config :=
  fold_left (sched_step u1 u2) schedule c.

(** Both threads arrive at the branch, with the lock free. *)
Definition start_config (srv : Server) : Config :=
  (AtWith, AtWith, {| sh_server := srv; sh_locked := false; sh_out := [] |}).



(** ** Media relay (lines 320-378) *)

Definition py_truthy_addr (a : option (list json)) : bool :=
  match a with
  | Some (_ :: _) => true
  | _ => false
  end.

(** One turn of the loop of [handle_video_stream] / [handle_audio_stream] for
    a received datagram [data]; the two loops differ in the registry field
    they read. [Some []] after a [continue]; [None] when an exception reaches
    the handler of the loop (it is printed, nothing is forwarded). *)
Definition media_relay (bo : byteorder)
    (endpoint : ClientInfo → option (list json))
    (srv : Server) (data : bytes) : option (list UdpEffect) :=
  if (length data <? 4)%nat then Some []
  else
    username_len ← struct_unpack_I bo (take 4 data);
    if (length data <? 4 + N.to_nat username_len)%nat then Some []
    else
      username ← decode_utf8 (take (N.to_nat username_len) (drop 4 data));
      Some (flat_map
              (λ '(client_name, client_info),
                 if negb (py_eq client_name (IdStr username))
                    && py_truthy_addr (endpoint client_info)
                 then [UdpSend (default [] (endpoint client_info)) data]
                 else [])
              (clients srv)).

Definition handle_video_stream (bo : byteorder) := media_relay bo video_addr.
Definition handle_audio_stream (bo : byteorder) := media_relay bo audio_addr.

(** ** Vocabulary of the statements *)

(** A stream in which no segment is empty (an empty segment never arrives;
    [recv] returns [b''] only at the end of the stream). *)
Definition nonempty_segments (sock : Stream) : Prop :=
  Forall (λ seg : bytes, seg ≠ []) sock.

(** The tags that [process_message] dispatches on. *)
Definition known_tags : list string :=
  ["chat"; "video_register"; "audio_register"; "start_presentation";
   "stop_presentation"; "screen_frame"; "private_chat"; "file_upload";
   "file_download"].

(** The event stores a file under [key]. *)
Definition uploads (key : fkey) (ev : Event) : bool :=
  match ev with
  | Frame _ (Some (JObj m)) _ =>
      tag_is (obj_get m "type") "file_upload"
      && bool_decide (obj_get m "file_id" ≫= dict_key = Some key)
  | _ => false
  end.



(** [%02d] of [n] is two decimal digits. *)
Definition two_digits (n : nat) : bool :=
  match list_ascii_of_string (zfill 2 n) with
  | [a; b] => is_digit a && is_digit b
  | _ => false
  end.

(** The sockets held by the registry, in registry order. *)
Definition sockets (regs : list (ident * ClientInfo)) : list Socket :=
  map (λ kv, tcp_socket kv.2) regs.

(** Every frame in [out] goes to the socket of a registry entry of [srv]. *)
Definition sends_within (srv : Server) (out : list Effect) : Prop :=
  ∀ sock message, In (TcpSend sock message) out → In sock (sockets (clients srv)).


(** The registry entries that a broadcast without [exclude] reaches: all but
    one keyed by [None]. *)
Definition audience (srv : Server) : list (ident * ClientInfo) :=
  List.filter (λ kv, negb (py_eq kv.1 IdNull)) (clients srv).

(** ** Invariants of the handler threads *)

(** What one call of [process_message] for [username] can do to the registry
    and to the presenter slot. *)
Definition pm_effect (srv : Server) (username : ident) (srv' : Server) : Prop :=
  (clients srv' = clients srv
   ∨ ∃ info info',
       dict_get (clients srv) username = Some info
       ∧ tcp_socket info' = tcp_socket info
       ∧ clients srv' = dict_set (clients srv) username info')
  ∧ (presenter srv' = presenter srv
     ∨ (presenter srv = IdNull ∧ presenter srv' = username)
     ∨ (py_eq (presenter srv) username = true ∧ presenter srv' = IdNull)).

(** The registry and the handler threads agree: identities are distinct,
    each entry holds the socket of the live handler of its identity, each
    live handler has its entry and a truthy identity, and the presenter is
    registered. *)
Record sys_inv (sys : System) : Prop := {
  inv_nodup : NoDup (map ident_key (dict_keys (clients (server sys))));
  inv_entry_handler :
    ∀ u info, In (u, info) (clients (server sys)) →
              handlers sys !! tcp_socket info = Some u;
  inv_handler_entry :
    ∀ sock u, handlers sys !! sock = Some u →
              ∃ info, In (u, info) (clients (server sys))
                      ∧ tcp_socket info = sock;
  inv_truthy :
    ∀ sock u, handlers sys !! sock = Some u →
              py_truthy (ident_json u) = true;
  inv_presenter :
    presenter (server sys) = IdNull
    ∨ ∃ info, In (presenter (server sys), info) (clients (server sys)) }.



(** ** The client side of the wire ([client_network.py]) *)

(** [send_video_packet] / [send_audio_packet] (lines 115-133): the datagram
    handed to [sendto]. [username.encode('utf-8')] is the identity on the
    representation of [str]. [None]: the [except: pass] path, nothing is
    sent. *)
Definition media_packet (bo : byteorder) (username : string)
    (frame_data : bytes) : option bytes :=
  let username_bytes := list_byte_of_string username in
  header ← struct_pack_I bo (N.of_nat (length username_bytes));
  Some (header ++ username_bytes ++ frame_data).

Definition send_video_packet := media_packet.
Definition send_audio_packet := media_packet.

(** [receive_video_packet] / [receive_audio_packet] (lines 135-175) on the
    datagram that [recvfrom] returned. [None] is the result [(None, None)],
    on the two length tests and on any exception. *)
Definition receive_media_packet (bo : byteorder) (datagram : bytes)
  : option (string * bytes) :=
  if (length datagram <? 4)%nat then None
  else
    username_len ← struct_unpack_I bo (take 4 datagram);
    if (length datagram <? 4 + N.to_nat username_len)%nat then None
    else
      username ← decode_utf8 (take (N.to_nat username_len) (drop 4 datagram));
      Some (username, drop (4 + N.to_nat username_len) datagram).

Definition receive_video_packet := receive_media_packet.
Definition receive_audio_packet := receive_media_packet.

(** [send_tcp_message] (lines 74-82) and [_receive_tcp_loop] (lines 94-113)
    over the JSON codec of the Python library. The loop hands each decoded
    message to [callback.on_server_message] and ends at the first failed
    read, undecodable payload or exception of the callback
    ([callback_raises]); its value here is the list of messages handed over.
    [_recv_exact] is [recv_exact] line for line. *)
Section client_tcp.
Context {message : Type}.
Variable json_dumps : message → bytes.
Variable json_loads : bytes → option message.
Variable callback_raises : message → bool.

Definition send_tcp_message (bo : byteorder) (m : message) : option bytes :=
  frame_bytes bo (json_dumps m).

(** [fuel] bounds the number of turns of the loop. *)
Fixpoint receive_tcp_loop_fuel (fuel : nat) (bo : byteorder) (sock : Stream)
  : list message :=
  match fuel with
  | O => []
  | S fuel' =>
      match recv_frame bo sock with
      | (Some payload, sock') =>
          match json_loads payload with
          | Some msg =>
              msg :: (if callback_raises msg then []
                      else receive_tcp_loop_fuel fuel' bo sock')
          | None => []
          end
      | (None, _) => []
      end
  end.

(** Every turn that goes on consumes a frame, so the loop makes fewer turns
    than there are bytes on the stream. *)
Definition receive_tcp_loop (bo : byteorder) (sock : Stream) : list message :=
  receive_tcp_loop_fuel (S (length (concat sock))) bo sock.
End client_tcp.

(** The frames of a list of payloads, one after the other. *)
Fixpoint frames (bo : byteorder) (payloads : list bytes) : option bytes :=
  match payloads with
  | [] => Some []
  | p :: rest =>
      f ← frame_bytes bo p;
      fs ← frames bo rest;
      Some (f ++ fs)
  end.

(** ** Private messages on the client ([client_gui.py], lines 704-718) *)

Section client_gui.
Context {PS : PyStr}.


End client_gui.

(** ** Sample states *)

Definition sample_addr : Addr := ("10.0.0.1", 4000).

Definition sample_info (sock : Socket) : ClientInfo :=
  {| tcp_socket := sock; address := sample_addr;
     video_addr := None; audio_addr := None |}.

(** Alice and Bob are registered, nobody presents, nothing is stored. *)
Definition sample_server : Server :=
  {| clients := [(IdStr "Alice", sample_info 1); (IdStr "bob", sample_info 2)];
     presenter := IdNull; shared_files := ∅ |}.

Definition sample_now : nat → datetime := λ _, Build_datetime 2024 5 17 9 3 7.

(** The two handler threads of [sample_server]. *)
Definition sample_system : System :=
  {| server := sample_server;
     handlers := {[1 := IdStr "Alice"; 2 := IdStr "bob"]} |}.

(** Alice and Bob have registered video endpoints, Carol has not. *)
Definition sample_media_server : Server :=
  {| clients :=
       [(IdStr "Alice",
         set_video_addr (sample_info 1) [JStr "10.0.0.1"; JInt 6001]);
        (IdStr "bob",
         set_video_addr (sample_info 2) [JStr "10.0.0.2"; JInt 6002]);
        (IdStr "carol", sample_info 3)];
     presenter := IdNull; shared_files := ∅ |}.

(** A [register] frame. *)
Definition register_frame (username : json) : option json :=
  Some (JObj [("type", JStr "register"); ("username", username)]).



(** Alice and Bob are connected, Alice presents. *)
Definition presenting_system : System :=
  {| server := set_presenter sample_server (IdStr "Alice");
     handlers := {[1 := IdStr "Alice"; 2 := IdStr "bob"]} |}.

(** Alice alone is connected. *)
Definition alice_system : System :=
  {| server := {| clients := [(IdStr "Alice", sample_info 1)];
                  presenter := IdNull; shared_files := ∅ |};
     handlers := {[1 := IdStr "Alice"]} |}.


(** The record of an uploaded file, the system in which Alice has uploaded
    it, and the system after everybody has left. *)
Definition sample_file : FileInfo :=
  {| filename := JStr "notes.txt"; size := JInt 5; data := JStr "aGVsbG8=";
     uploader := IdStr "Alice"; timestamp := "2024-05-17 09:03:07" |}.

Definition uploaded_system : System :=
  {| server := set_shared_files sample_server {[Some (inl "f-1") := sample_file]};
     handlers := {[1 := IdStr "Alice"; 2 := IdStr "bob"]} |}.

Definition emptied_system : System :=
  {| server := {| clients := []; presenter := IdNull;
                  shared_files := {[Some (inl "f-1") := sample_file]} |};
     handlers := ∅ |}.


(** * Properties *)

(** ** Frame codec *)

Lemma to_N_byte_of_N n : Byte.to_N (byte_of_N n) = (n mod 256)%N.
Proof.
  unfold byte_of_N. destruct (Byte.of_N (n mod 256)) as [b|] eqn:E; simpl.
  - by apply Byte.to_of_N.
  - apply Byte.of_N_None_iff in E. pose proof (N.mod_lt n 256). lia.
Qed.

Lemma le_u32_le n : (n < 4294967296)%N → le_u32 (u32_le n) = n.
Proof.
  intros Hn. unfold le_u32, u32_le. rewrite !to_N_byte_of_N.
  change 65536%N with (256 * 256)%N.
  change 16777216%N with (256 * 256 * 256)%N.
  rewrite <- !N.Div0.div_div.
  pose proof (N.div_mod n 256). pose proof (N.mod_lt n 256).
  pose proof (N.div_mod (n / 256) 256). pose proof (N.mod_lt (n / 256) 256).
  pose proof (N.div_mod (n / 256 / 256) 256).
  pose proof (N.mod_lt (n / 256 / 256) 256).
  assert (n / 256 / 256 / 256 < 256)%N.
  { rewrite !N.Div0.div_div. apply N.Div0.div_lt_upper_bound. lia. }
  rewrite (N.mod_small (n / 256 / 256 / 256)) by done.
  lia.
Qed.

Lemma struct_unpack_pack bo n :
  (n < 4294967296)%N →
  ∃ hdr, struct_pack_I bo n = Some hdr ∧ length hdr = 4
         ∧ struct_unpack_I bo hdr = Some n.
Proof.
  intros Hn. unfold struct_pack_I, struct_unpack_I.
  apply N.ltb_lt in Hn as Hb. rewrite Hb.
  destruct bo; eexists; (split; [reflexivity|]); split; try reflexivity.
  - change (length (u32_le n) =? 4)%nat with true. cbv iota.
    f_equal. by apply le_u32_le.
  - change (length (rev (u32_le n)) =? 4)%nat with true. cbv iota.
    rewrite rev_involutive. f_equal. by apply le_u32_le.
Qed.

Lemma recv_spec sock k p sock' :
  nonempty_segments sock → 0 < k → recv sock k = (p, sock') →
  concat sock = p ++ concat sock' ∧ length p ≤ k
  ∧ nonempty_segments sock' ∧ (p = [] → sock = []).
Proof.
  intros Hne Hk. destruct sock as [|seg rest]; simpl.
  - intros [= <- <-]. repeat split; simpl; auto with lia.
  - apply Forall_cons in Hne as [Hseg Hrest].
    destruct (length seg <=? k)%nat eqn:E; intros [= <- <-].
    + apply Nat.leb_le in E. repeat split; auto. intros ->. done.
    + apply Nat.leb_gt in E. simpl. rewrite app_assoc, take_drop.
      repeat split; auto.
      * rewrite length_take. lia.
      * apply Forall_cons. split; [|done].
        intros Hd. apply (f_equal length) in Hd. rewrite length_drop in Hd.
        simpl in Hd. lia.
      * intros Ht. apply (f_equal length) in Ht. rewrite length_take in Ht.
        simpl in Ht. destruct seg; simpl in *; [done|lia].
Qed.

Lemma recv_exact_loop_ok (sock : Stream) (buf : bytes) (n : nat) :
  nonempty_segments sock → length buf ≤ n →
  n - length buf ≤ length (concat sock) →
  ∃ sock', recv_exact_loop sock buf n
           = (Some (buf ++ take (n - length buf) (concat sock)), sock')
           ∧ concat sock' = drop (n - length buf) (concat sock)
           ∧ nonempty_segments sock'.
Proof.
  funelim (recv_exact_loop sock buf n); intros Hne Hle Hlen.
  - exists sock. replace (n - length data0) with 0 by lia.
    simpl. by rewrite app_nil_r.
  - apply recv_spec in Heq as (_ & _ & _ & Hnil); [|done|lia].
    rewrite (Hnil eq_refl) in Hlen. simpl in Hlen. lia.
  - apply recv_spec in Heq as (Hcat & Hp & Hne' & _); [|done|lia].
    rewrite length_app in *. rewrite Hcat in Hlen |- *.
    rewrite length_app in Hlen.
    clear Heqcall.
    repeat match goal with E : lt_dec _ _ = _ |- _ => clear E end.
    destruct H as (sock2 & -> & Hrest & Hne2); [done|lia|lia|].
    exists sock2. split; [|split; [|done]].
    + f_equal. rewrite <- app_assoc. f_equal.
      rewrite take_app, (take_ge (b :: packet)) by lia.
      do 3 f_equal. lia.
    + rewrite Hrest, drop_app, (drop_ge (b :: packet)) by lia. simpl.
      f_equal. lia.
Qed.

Lemma recv_exact_loop_short (sock : Stream) (buf : bytes) (n : nat) :
  nonempty_segments sock → length buf + length (concat sock) < n →
  (recv_exact_loop sock buf n).1 = None.
Proof.
  funelim (recv_exact_loop sock buf n); intros Hne Hlen.
  - lia.
  - done.
  - apply recv_spec in Heq as (Hcat & Hp & Hne' & _); [|done|lia].
    clear Heqcall.
    repeat match goal with E : lt_dec _ _ = _ |- _ => clear E end.
    apply H; [done|]. rewrite Hcat in Hlen. rewrite !length_app in *. lia.
Qed.

Lemma recv_exact_ok (sock : Stream) (front rest : bytes) :
  nonempty_segments sock → concat sock = front ++ rest →
  ∃ sock', recv_exact sock (length front) = (Some front, sock')
           ∧ concat sock' = rest ∧ nonempty_segments sock'.
Proof.
  intros Hne Hcat. unfold recv_exact.
  destruct (recv_exact_loop_ok sock [] (length front)) as (sock' & E & Hc & Hn);
    [done|simpl; lia|rewrite Hcat, length_app; simpl; lia|].
  exists sock'. rewrite E, Hc, Hcat. simpl. rewrite Nat.sub_0_r.
  by rewrite take_app_length, drop_app_length.
Qed.

Lemma recv_exact_short (sock : Stream) (n : nat) :
  nonempty_segments sock → length (concat sock) < n →
  (recv_exact sock n).1 = None.
Proof. intros. by apply recv_exact_loop_short. Qed.

Lemma recv_frame_ok bo (hdr p rest : bytes) (sock : Stream) :
  length hdr = 4 → struct_unpack_I bo hdr = Some (N.of_nat (length p)) →
  p ≠ [] → nonempty_segments sock → concat sock = hdr ++ p ++ rest →
  ∃ sock', recv_frame bo sock = (Some p, sock') ∧ concat sock' = rest.
Proof.
  intros Hhdr Hun Hp Hne Hcat.
  destruct (recv_exact_ok sock hdr (p ++ rest)) as (sock1 & E1 & Hc1 & Hn1);
    [done..|].
  destruct (recv_exact_ok sock1 p rest) as (sock2 & E2 & Hc2 & Hn2); [done..|].
  exists sock2. split; [|done].
  unfold recv_frame. rewrite Hhdr in E1. rewrite E1.
  destruct hdr as [|h0 hdr']; [done|]. rewrite Hun, Nat2N.id, E2.
  by destruct p.
Qed.

Lemma recv_frame_short bo (hdr p missing : bytes) (sock : Stream) :
  length hdr = 4 → struct_unpack_I bo hdr = Some (N.of_nat (length p)) →
  nonempty_segments sock → missing ≠ [] → concat sock ++ missing = hdr ++ p →
  (recv_frame bo sock).1 = None.
Proof.
  intros Hhdr Hun Hne Hmiss Hcat. unfold recv_frame.
  assert (length (concat sock) < 4 + length p) as Hlen.
  { apply (f_equal length) in Hcat. rewrite !length_app in Hcat.
    destruct missing; [done|]. simpl in Hcat. lia. }
  destruct (decide (length (concat sock) < 4)) as [Hlt|Hge].
  - pose proof (recv_exact_short sock 4 Hne Hlt) as E.
    destruct (recv_exact sock 4) as [[l|] s]; simpl in E; [done|done].
  - assert (concat sock = hdr ++ drop 4 (concat sock)) as Hsplit.
    { rewrite <- (take_drop 4 (concat sock)) at 1. f_equal.
      apply (f_equal (take 4)) in Hcat.
      rewrite take_app_le in Hcat by lia.
      rewrite <- Hhdr in Hcat at 2. by rewrite take_app_length in Hcat. }
    destruct (recv_exact_ok sock hdr _ Hne Hsplit) as (sock1 & E1 & Hc1 & Hn1).
    rewrite Hhdr in E1. rewrite E1.
    destruct hdr as [|h0 hdr']; [done|]. rewrite Hun, Nat2N.id.
    assert (length (concat sock1) < length p) as Hlt1.
    { rewrite Hc1, length_drop. lia. }
    pose proof (recv_exact_short sock1 (length p) Hn1 Hlt1) as E.
    destruct (recv_exact sock1 (length p)) as [[[|]|] s]; simpl in E; done.
Qed.

Lemma recv_frame_empty bo (hdr rest : bytes) (sock : Stream) :
  length hdr = 4 → struct_unpack_I bo hdr = Some 0%N →
  nonempty_segments sock → concat sock = hdr ++ rest →
  (recv_frame bo sock).1 = None.
Proof.
  intros Hhdr Hun Hne Hcat.
  destruct (recv_exact_ok sock hdr rest) as (sock1 & E1 & Hc1 & Hn1); [done..|].
  destruct (recv_exact_ok sock1 [] rest) as (sock2 & E2 & Hc2 & Hn2); [done..|].
  unfold recv_frame. rewrite Hhdr in E1. rewrite E1.
  destruct hdr as [|h0 hdr']; [done|]. rewrite Hun.
  change (N.to_nat 0) with (length (@nil byte)). by rewrite E2.
Qed.

Lemma frame_bytes_too_long bo (p : bytes) :
  (4294967296 ≤ N.of_nat (length p))%N → frame_bytes bo p = None.
Proof.
  intros H. unfold frame_bytes, struct_pack_I.
  destruct (N.ltb_spec (N.of_nat (length p)) 4294967296) as [Hlt|_]; [|done].
  exfalso. apply (proj1 (N.lt_nge _ _) Hlt). exact H.
Qed.

(** C8 (amended). On a host of either byte order, [struct.pack] raises for a
    payload of 2^32 bytes or more and nothing is framed. A shorter payload
    is framed as a 4-byte header followed by the payload, the header being
    the payload length in the byte order of the host. If the payload is not
    empty, reading a stream that begins with the frame, however it is cut
    into segments, returns the payload and consumes exactly the frame; the
    complete frame of the empty payload is read as [None]; and reading a
    stream that ends inside a frame returns [None]. *)
Theorem frame_roundtrip (bo : byteorder) (p : bytes) :
  ((4294967296 ≤ N.of_nat (length p))%N → frame_bytes bo p = None)
  ∧ ((N.of_nat (length p) < 4294967296)%N →
     ∃ hdr,
       frame_bytes bo p = Some (hdr ++ p) ∧ length hdr = 4
       ∧ le_u32 (match bo with little => hdr | big => rev hdr end)
         = N.of_nat (length p)
       ∧ (p ≠ [] → ∀ sock rest,
            nonempty_segments sock → concat sock = hdr ++ p ++ rest →
            ∃ sock', recv_frame bo sock = (Some p, sock') ∧ concat sock' = rest)
       ∧ (p = [] → ∀ sock rest,
            nonempty_segments sock → concat sock = hdr ++ p ++ rest →
            (recv_frame bo sock).1 = None)
       ∧ (∀ sock missing, nonempty_segments sock → missing ≠ [] →
            concat sock ++ missing = hdr ++ p → (recv_frame bo sock).1 = None)).
Proof.
  split; [apply frame_bytes_too_long|].
  intros Hlen.
  destruct (struct_unpack_pack bo _ Hlen) as (hdr & Hpack & Hhdr & Hun).
  exists hdr. unfold frame_bytes. rewrite Hpack. simpl.
  split; [done|]. split; [done|]. split; [|split; [|split]].
  - unfold struct_unpack_I in Hun. rewrite Hhdr in Hun. simpl in Hun.
    by injection Hun.
  - intros Hp sock rest. by apply recv_frame_ok.
  - intros -> sock rest Hne Hcat. by apply (recv_frame_empty bo hdr rest).
  - intros sock missing. by apply recv_frame_short.
Qed.

Lemma frame_roundtrip_witness :
  (N.of_nat (length [x7b; x7d]) < 4294967296)%N
  ∧ ∃ hdr,
    frame_bytes little [x7b; x7d] = Some (hdr ++ [x7b; x7d]) ∧ length hdr = 4
    ∧ le_u32 hdr = 2%N
    ∧ ([x7b; x7d] ≠ [] → ∀ sock rest, nonempty_segments sock →
         concat sock = hdr ++ [x7b; x7d] ++ rest →
         ∃ sock', recv_frame little sock = (Some [x7b; x7d], sock')
                  ∧ concat sock' = rest)
    ∧ ([x7b; x7d] = [] → ∀ sock rest, nonempty_segments sock →
         concat sock = hdr ++ [x7b; x7d] ++ rest →
         (recv_frame little sock).1 = None)
    ∧ (∀ sock missing, nonempty_segments sock → missing ≠ [] →
         concat sock ++ missing = hdr ++ [x7b; x7d] →
         (recv_frame little sock).1 = None).
Proof.
  split; [reflexivity|].
  apply (proj2 (frame_roundtrip little [x7b; x7d])). reflexivity.
Defined.

(** C8 as stated fails in three ways. The frame of the empty payload is four
    zero bytes, and [recv_frame] answers [None] on the complete frame. No
    byte order is pinned: whichever one is fixed, the frames of some host
    differ from it, and a big-endian host that reads the little-endian frame
    of a two-byte payload waits for 33554432 bytes and returns [None]. And a
    payload of 2^32 bytes has no frame. *)
Lemma frame_roundtrip_limits :
  ¬ (∀ bo (p f : bytes) (sock : Stream),
       nonempty_segments sock → frame_bytes bo p = Some f → concat sock = f →
       (recv_frame bo sock).1 = Some p)
  ∧ (∀ pinned : byteorder,
       ∃ bo p, frame_bytes bo p ≠ frame_bytes pinned p)
  ∧ (frame_bytes little [x7b; x7d] = Some [x02; x00; x00; x00; x7b; x7d]
     ∧ struct_unpack_I big [x02; x00; x00; x00] = Some 33554432%N
     ∧ (recv_frame big [[x02; x00; x00; x00; x7b; x7d]]).1 = None)
  ∧ frame_bytes little (repeat x00 (N.to_nat 4294967296)) = None
  ∧ frame_bytes big (repeat x00 (N.to_nat 4294967296)) = None.
Proof.
  split; [|split; [|split; [|split]]].
  - intros H.
    specialize (H little [] [x00; x00; x00; x00] [[x00; x00; x00; x00]]).
    discriminate H; [|reflexivity..].
    by repeat constructor.
  - intros [|].
    + exists big, [x7b; x7d]. discriminate.
    + exists little, [x7b; x7d]. discriminate.
  - split; [reflexivity|]. split; [reflexivity|].
    destruct (recv_exact_ok [[x02; x00; x00; x00; x7b; x7d]]
                [x02; x00; x00; x00] [x7b; x7d])
      as (sock1 & E1 & Hc1 & Hn1); [by repeat constructor|done|].
    unfold recv_frame.
    change (length [x02; x00; x00; x00]) with 4 in E1. rewrite E1.
    change (struct_unpack_I big [x02; x00; x00; x00]) with (Some 33554432%N).
    cbv beta iota.
    assert (length (concat sock1) < N.to_nat 33554432) as Hlt.
    { rewrite Hc1. simpl. lia. }
    pose proof (recv_exact_short sock1 _ Hn1 Hlt) as E.
    destruct (recv_exact sock1 (N.to_nat 33554432)) as [[[|]|] s];
      simpl in E; done.
  - apply frame_bytes_too_long. rewrite repeat_length, N2Nat.id. done.
  - apply frame_bytes_too_long. rewrite repeat_length, N2Nat.id. done.
Qed.

(** ** Identities and dicts *)

Lemma py_eq_true u v : py_eq u v = true ↔ ident_key u = ident_key v.
Proof. unfold py_eq. apply bool_decide_eq_true. Qed.

Lemma py_eq_false u v : py_eq u v = false ↔ ident_key u ≠ ident_key v.
Proof. unfold py_eq. apply bool_decide_eq_false. Qed.

Lemma py_eq_refl u : py_eq u u = true.
Proof. by apply py_eq_true. Qed.


Lemma py_eq_key u v w : ident_key u = ident_key v → py_eq w u = py_eq w v.
Proof. intros H. unfold py_eq. by rewrite H. Qed.

Lemma py_eq_IdStr u s : py_eq u (IdStr s) = true ↔ u = IdStr s.
Proof.
  rewrite py_eq_true. split; [|by intros ->].
  destruct u as [|[]| |]; simpl; congruence.
Qed.

Lemma dict_key_ident u : dict_key (ident_json u) = Some (ident_key u).
Proof. by destruct u. Qed.

Lemma hashable_ident_json u : hashable (ident_json u) = Some u.
Proof. by destruct u. Qed.

Lemma hashable_Some v u : hashable v = Some u → v = ident_json u.
Proof. destruct v; simpl; intros [= <-]; done. Qed.

Lemma py_truthy_not_null u : py_truthy (ident_json u) = true → py_eq u IdNull = false.
Proof.
  intros H. apply py_eq_false. destruct u as [|[]|z|s]; simpl in *; try done.
Qed.

Section dict_facts.
Context {V : Type}.
Implicit Types (d : list (ident * V)) (k : ident) (v : V).

Lemma dict_get_key d k k' :
  ident_key k = ident_key k' → dict_get d k = dict_get d k'.
Proof.
  intros H. induction d as [|[k0 v0] d IH]; simpl; [done|].
  by rewrite (py_eq_key _ _ k0 H), IH.
Qed.

Lemma dict_get_set_eq d k v : dict_get (dict_set d k v) k = Some v.
Proof.
  induction d as [|[k' v'] d IH]; simpl.
  - by rewrite py_eq_refl.
  - destruct (py_eq k' k) eqn:E; simpl; rewrite E; auto.
Qed.

Lemma dict_get_set_ne d k k' v :
  ident_key k ≠ ident_key k' → dict_get (dict_set d k v) k' = dict_get d k'.
Proof.
  intros Hne. induction d as [|[k0 v0] d IH]; simpl.
  - by rewrite (proj2 (py_eq_false _ _) Hne).
  - destruct (py_eq k0 k) eqn:E; simpl.
    + apply py_eq_true in E.
      assert (py_eq k0 k' = false) as ->; [|done].
      apply py_eq_false. congruence.
    + by rewrite IH.
Qed.

Lemma dict_set_present d k v :
  is_Some (dict_get d k) → (dict_set d k v).*1 = d.*1.
Proof.
  induction d as [|[k0 v0] d IH]; simpl.
  - by intros [? ?].
  - destruct (py_eq k0 k) eqn:E; simpl; [done|].
    intros H. f_equal. by apply IH.
Qed.

Lemma dict_keys_set_present d k v :
  is_Some (dict_get d k) → dict_keys (dict_set d k v) = dict_keys d.
Proof. apply dict_set_present. Qed.

Lemma dict_keys_set_absent d k v :
  dict_get d k = None → dict_set d k v = d ++ [(k, v)].
Proof.
  induction d as [|[k0 v0] d IH]; simpl; [done|].
  destruct (py_eq k0 k) eqn:E; [done|]. intros H. by rewrite IH.
Qed.

Lemma dict_get_Some_In d k v :
  dict_get d k = Some v → ∃ k0, In (k0, v) d ∧ ident_key k0 = ident_key k.
Proof.
  induction d as [|[k0 v0] d IH]; simpl; [done|].
  destruct (py_eq k0 k) eqn:E.
  - apply py_eq_true in E. intros [= ->]. exists k0. split; [by left|done].
  - intros H. destruct (IH H) as (k1 & Hin & Hk). exists k1. split; [by right|done].
Qed.

Lemma dict_get_None d k :
  dict_get d k = None ↔ ident_key k ∉ ident_key <$> dict_keys d.
Proof.
  unfold dict_keys. induction d as [|[k0 v0] d IH]; simpl.
  - split; [intros _ H; by apply elem_of_nil in H|done].
  - rewrite not_elem_of_cons.
    destruct (py_eq k0 k) eqn:E.
    + apply py_eq_true in E. split; [done|]. intros [? _]. congruence.
    + apply py_eq_false in E. rewrite IH. split; [intros; split; [congruence|done]|tauto].
Qed.

Lemma dict_get_In d k v :
  NoDup (ident_key <$> dict_keys d) → In (k, v) d → dict_get d k = Some v.
Proof.
  unfold dict_keys. induction d as [|[k0 v0] d IH]; simpl; [done|].
  intros [Hnot Hnd]%NoDup_cons [[= -> ->]|Hin].
  - by rewrite py_eq_refl.
  - assert (py_eq k0 k = false) as ->; [|auto].
    apply py_eq_false. intros Hk. apply Hnot. rewrite Hk.
    apply list_elem_of_fmap. exists k. split; [done|].
    apply list_elem_of_fmap. exists (k, v).
    split; [done|]. by apply list_elem_of_In.
Qed.

Lemma dict_get_del_eq d k :
  NoDup (ident_key <$> dict_keys d) → dict_get (dict_del d k) k = None.
Proof.
  unfold dict_keys. induction d as [|[k0 v0] d IH]; simpl; [done|].
  intros [Hnot Hnd]%NoDup_cons.
  destruct (py_eq k0 k) eqn:E; simpl.
  - apply py_eq_true in E. apply dict_get_None. by rewrite <- E.
  - rewrite E. auto.
Qed.

Lemma dict_get_del_ne d k k' :
  ident_key k ≠ ident_key k' → dict_get (dict_del d k) k' = dict_get d k'.
Proof.
  intros Hne. induction d as [|[k0 v0] d IH]; simpl; [done|].
  destruct (py_eq k0 k) eqn:E; simpl.
  - apply py_eq_true in E.
    assert (py_eq k0 k' = false) as ->; [|done].
    apply py_eq_false. congruence.
  - by rewrite IH.
Qed.

Lemma dict_del_sublist d k : sublist (dict_del d k) d.
Proof.
  induction d as [|[k0 v0] d IH]; simpl; [done|].
  destruct (py_eq k0 k); [by apply sublist_cons|by apply sublist_skip].
Qed.

Lemma dict_del_absent d k : dict_get d k = None → dict_del d k = d.
Proof.
  induction d as [|[k0 v0] d IH]; simpl; [done|].
  destruct (py_eq k0 k); [done|]. intros H. by rewrite IH.
Qed.

Lemma dict_keys_del_NoDup d k :
  NoDup (ident_key <$> dict_keys d) →
  NoDup (ident_key <$> dict_keys (dict_del d k)).
Proof.
  unfold dict_keys. intros H.
  eapply sublist_NoDup; [exact H|].
  apply fmap_sublist, fmap_sublist, dict_del_sublist.
Qed.

Lemma dict_keys_set_NoDup d k v :
  NoDup (ident_key <$> dict_keys d) →
  NoDup (ident_key <$> dict_keys (dict_set d k v)).
Proof.
  intros H. destruct (dict_get d k) as [v0|] eqn:E.
  - by rewrite dict_keys_set_present.
  - rewrite dict_keys_set_absent by done. unfold dict_keys in *.
    rewrite !fmap_app. apply NoDup_app. split; [done|]. split.
    + intros x Hx Hin. apply list_elem_of_singleton in Hin as ->.
      by apply dict_get_None in E.
    + apply NoDup_singleton.
Qed.
End dict_facts.

(** ** Sending *)

Lemma broadcast_message_all srv message :
  broadcast_message srv message IdNull
  = map (λ kv, TcpSend (tcp_socket kv.2) message) (audience srv).
Proof.
  unfold broadcast_message, audience.
  induction (clients srv) as [|[k v] l IH]; [done|].
  simpl. destruct (negb (py_eq k IdNull)); simpl; by rewrite IH.
Qed.

Lemma audience_all srv :
  (∀ k v, In (k, v) (clients srv) → py_eq k IdNull = false) →
  audience srv = clients srv.
Proof.
  unfold audience. induction (clients srv) as [|[k v] l IH]; [done|].
  intros H. simpl. rewrite (H k v) by (by left). simpl. f_equal.
  apply IH. intros k' v' Hin. apply (H k' v'). by right.
Qed.


Lemma system_eta sys :
  {| server := server sys; handlers := handlers sys |} = sys.
Proof. by destruct sys. Qed.

Lemma obj_get_truthy m key v : obj_get m key = Some v → py_truthy (JObj m) = true.
Proof. by destruct m. Qed.

(** ** Dispatch of [process_message] *)

Lemma tag_is_true v s : tag_is v s = true ↔ v = Some (JStr s).
Proof.
  unfold tag_is. destruct v as [[]|]; try (split; [discriminate|congruence]).
  rewrite bool_decide_eq_true. split; congruence.
Qed.

Lemma tag_is_unknown v s :
  (∀ t, v = Some (JStr t) → t ∉ known_tags) → s ∈ known_tags →
  tag_is v s = false.
Proof.
  intros Hv Hs. destruct (tag_is v s) eqn:E; [|done].
  apply tag_is_true in E. by destruct (Hv s E).
Qed.

Section dispatch.
Context {PS : PyStr}.

(** C10. A control message (a decoded object) whose tag is none of the nine
    that [process_message] knows, or that has no string tag at all, changes
    nothing of the server state and sends nothing. *)
Theorem unknown_tag_noop now srv username m :
  (∀ t, obj_get m "type" = Some (JStr t) → t ∉ known_tags) →
  process_message now srv username (JObj m) = Some (srv, []).
Proof.
  intros Hm. unfold process_message.
  rewrite !(tag_is_unknown _ _ Hm); [done|apply list_elem_of_In; simpl; tauto..].
Qed.



Lemma process_message_screen_frame now srv username m :
  obj_get m "type" = Some (JStr "screen_frame") →
  process_message now srv username (JObj m) =
  if py_eq (presenter srv) username
  then frame_data ← obj_get m "frame_data";
       Some (srv, broadcast_message srv
                    (msg_screen_frame username frame_data) IdNull)
  else Some (srv, []).
Proof. intros H. unfold process_message. rewrite H. reflexivity. Qed.

Lemma process_message_chat now srv username m :
  obj_get m "type" = Some (JStr "chat") →
  process_message now srv username (JObj m) =
  (message ← obj_get m "message";
   Some (srv, broadcast_message srv
                (msg_chat username message (strftime_HMS (now 0))) IdNull)).
Proof. intros H. unfold process_message. rewrite H. reflexivity. Qed.

Lemma process_message_file_upload now srv username m :
  obj_get m "type" = Some (JStr "file_upload") →
  process_message now srv username (JObj m) =
  (file_id ← obj_get m "file_id";
   filename ← obj_get m "filename";
   size ← obj_get m "size";
   data ← obj_get m "data";
   key ← dict_key file_id;
   let srv' :=
     set_shared_files srv
       (<[key := {| filename := filename; size := size; data := data;
                    uploader := username;
                    timestamp := strftime_YmdHMS (now 0) |}]>
          (shared_files srv)) in
   Some (srv',
         broadcast_message srv'
           (msg_file_available file_id filename size username) IdNull)).
Proof. intros H. unfold process_message. rewrite H. reflexivity. Qed.

Lemma process_message_file_download now srv username m :
  obj_get m "type" = Some (JStr "file_download") →
  process_message now srv username (JObj m) =
  (file_id ← obj_get m "file_id";
   key ← dict_key file_id;
   match shared_files srv !! key with
   | Some file_info =>
       Some (srv,
             send_to_user srv username
               (msg_file_data file_id (filename file_info) (size file_info)
                  (data file_info)))
   | None => Some (srv, [])
   end).
Proof. intros H. unfold process_message. rewrite H. reflexivity. Qed.

(** C6. A [file_download] request of a live handler for an id that is not in
    the file store sends nothing to anybody and leaves the whole state of the
    server, its registry, presenter slot, file store and handlers, as it
    was. The id is a value that can be a dict key (a string, as the protocol
    has it, a number, a boolean or null). *)
Theorem unknown_file_id_silent sys sock username now m file_id key :
  handlers sys !! sock = Some username →
  obj_get m "type" = Some (JStr "file_download") →
  obj_get m "file_id" = Some file_id → dict_key file_id = Some key →
  shared_files (server sys) !! key = None →
  process_message now (server sys) username (JObj m) = Some (server sys, [])
  ∧ step sys (Frame sock (Some (JObj m)) now) = Some (sys, []).
Proof.
  intros Hh Ht Hid Hkey Hnone.
  assert (process_message now (server sys) username (JObj m)
          = Some (server sys, [])) as Hpm.
  { rewrite process_message_file_download by done.
    rewrite Hid. simpl. rewrite Hkey. simpl. by rewrite Hnone. }
  split; [done|]. unfold step. rewrite Hh.
  cbn -[py_truthy process_message teardown].
  rewrite (obj_get_truthy _ _ _ Ht), Hpm. by rewrite system_eta.
Qed.
End dispatch.

Section dispatch_examples.
#[local] Existing Instance ascii_str.

Lemma unknown_tag_noop_witness :
  (∀ t, obj_get [("type", JStr "ping")] "type" = Some (JStr t) → t ∉ known_tags)
  ∧ process_message (λ _, Build_datetime 2024 1 1 0 0 0) init_server
      (IdStr "alice") (JObj [("type", JStr "ping")]) = Some (init_server, []).
Proof.
  assert (∀ t, obj_get [("type", JStr "ping")] "type" = Some (JStr t) →
               t ∉ known_tags) as H.
  { intros t [= <-] Hin%list_elem_of_In. simpl in Hin.
    intuition discriminate. }
  split; [exact H|]. exact (unknown_tag_noop _ _ _ _ H).
Defined.

Lemma unknown_file_id_silent_witness :
  process_message sample_now (server sample_system) (IdStr "bob")
    (JObj [("type", JStr "file_download"); ("file_id", JStr "f-1")])
  = Some (server sample_system, [])
  ∧ step sample_system
      (Frame 2 (Some (JObj [("type", JStr "file_download");
                            ("file_id", JStr "f-1")])) sample_now)
    = Some (sample_system, []).
Proof.
  apply (unknown_file_id_silent sample_system 2 (IdStr "bob") sample_now _
           (JStr "f-1") (Some (inl "f-1"))); reflexivity.
Defined.
End dispatch_examples.

(** ** Registration *)

Section registration.
Context {PS : PyStr}.

(** C3 (amended). A registration under an identity that is already in the
    registry is accepted: the entry of that identity now holds the new
    connection and address with both media endpoints cleared, it keeps its
    place in the presence order, no other entry, the presenter slot or the
    file store changes, the new connection gets a handler thread of that
    identity, and the first frame sent is its [welcome]. *)
Theorem duplicate_registration_overwrites sys sock addr data v username old :
  handlers sys !! sock = None →
  register_request data = Some v → hashable v = Some username →
  dict_get (clients (server sys)) username = Some old →
  ∃ sys' rest,
    step sys (Connect sock addr data)
    = Some (sys',
            TcpSend sock
              (JObj [("type", JStr "welcome");
                     ("message",
                      JStr ("Welcome to LAN Communication Server, "
                            +:+ py_str username +:+ "!"));
                     ("users",
                      JArr (map ident_json (dict_keys (clients (server sys)))))])
            :: rest)
    ∧ dict_get (clients (server sys')) username
      = Some {| tcp_socket := sock; address := addr;
                video_addr := None; audio_addr := None |}
    ∧ dict_keys (clients (server sys')) = dict_keys (clients (server sys))
    ∧ (∀ other, ident_key other ≠ ident_key username →
         dict_get (clients (server sys')) other
         = dict_get (clients (server sys)) other)
    ∧ presenter (server sys') = presenter (server sys)
    ∧ shared_files (server sys') = shared_files (server sys)
    ∧ handlers sys' = <[sock := username]> (handlers sys).
Proof.
  intros Hh Hreq Hhash Hold. unfold step. rewrite Hh, Hreq. simpl.
  rewrite Hhash. unfold register. eexists _, _. split.
  - simpl. unfold users. simpl.
    rewrite dict_keys_set_present by done. reflexivity.
  - simpl. split; [apply dict_get_set_eq|].
    split; [by apply dict_keys_set_present|].
    split; [intros other Hne; apply dict_get_set_ne; congruence|].
    done.
Qed.
End registration.

Section registration_examples.
#[local] Existing Instance ascii_str.

Lemma duplicate_registration_overwrites_witness :
  ∃ sys' rest,
    step sample_system
      (Connect 7 sample_addr
         (Some (JObj [("type", JStr "register"); ("username", JStr "Alice")])))
    = Some (sys',
            TcpSend 7
              (JObj [("type", JStr "welcome");
                     ("message",
                      JStr ("Welcome to LAN Communication Server, "
                            +:+ py_str (IdStr "Alice") +:+ "!"));
                     ("users",
                      JArr (map ident_json
                              (dict_keys (clients (server sample_system)))))])
            :: rest)
    ∧ dict_get (clients (server sys')) (IdStr "Alice")
      = Some {| tcp_socket := 7; address := sample_addr;
                video_addr := None; audio_addr := None |}
    ∧ dict_keys (clients (server sys'))
      = dict_keys (clients (server sample_system))
    ∧ (∀ other, ident_key other ≠ ident_key (IdStr "Alice") →
         dict_get (clients (server sys')) other
         = dict_get (clients (server sample_system)) other)
    ∧ presenter (server sys') = presenter (server sample_system)
    ∧ shared_files (server sys') = shared_files (server sample_system)
    ∧ handlers sys' = <[7 := IdStr "Alice"]> (handlers sample_system).
Proof.
  apply (duplicate_registration_overwrites sample_system 7 sample_addr
           (Some (JObj [("type", JStr "register"); ("username", JStr "Alice")]))
           (JStr "Alice") (IdStr "Alice") (sample_info 1));
    reflexivity.
Defined.

(** C3 as stated fails: a second connection that registers as Alice is
    accepted, takes over Alice's registry entry and is welcomed. *)
Lemma duplicate_registration_not_rejected :
  dict_get (clients sample_server) (IdStr "Alice") = Some (sample_info 1)
  ∧ ∃ sys' out,
      step sample_system
        (Connect 7 sample_addr
           (Some (JObj [("type", JStr "register"); ("username", JStr "Alice")])))
      = Some (sys', out)
      ∧ dict_get (clients (server sys')) (IdStr "Alice") = Some (sample_info 7)
      ∧ dict_get (clients (server sys')) (IdStr "Alice")
        ≠ dict_get (clients sample_server) (IdStr "Alice")
      ∧ handlers sys' !! 7 = Some (IdStr "Alice")
      ∧ out = [TcpSend 7
                 (JObj [("type", JStr "welcome");
                        ("message",
                         JStr "Welcome to LAN Communication Server, Alice!");
                        ("users", JArr [JStr "Alice"; JStr "bob"])]);
               TcpSend 2
                 (JObj [("type", JStr "user_joined");
                        ("username", JStr "Alice");
                        ("users", JArr [JStr "Alice"; JStr "bob"])])].
Proof.
  split; [reflexivity|]. eexists _, _. split; [reflexivity|].
  split; [reflexivity|]. split; [discriminate|]. split; reflexivity.
Qed.
End registration_examples.

(** ** Chat *)

Lemma zfill_two_digits n : n < 100 → two_digits n = true.
Proof.
  intros Hn.
  assert (forallb two_digits (seq 0 100) = true) as H by (vm_compute; reflexivity).
  rewrite forallb_forall in H. apply H. apply in_seq. lia.
Qed.

Lemma list_ascii_of_string_app s t :
  list_ascii_of_string (s +:+ t) = list_ascii_of_string s ++ list_ascii_of_string t.
Proof. induction s; simpl; [done|]. by rewrite <- IHs. Qed.

Lemma strftime_HMS_wf t : valid_time t → wf_timestamp (strftime_HMS t) = true.
Proof.
  intros (Hh & Hm & Hs). unfold wf_timestamp, strftime_HMS.
  pose proof (zfill_two_digits (hour t)) as H1.
  pose proof (zfill_two_digits (minute t)) as H2.
  pose proof (zfill_two_digits (second t)) as H3.
  unfold two_digits in *. rewrite !list_ascii_of_string_app.
  destruct (list_ascii_of_string (zfill 2 (hour t))) as [|a1 [|a2 [|]]];
    try (discriminate H1; lia).
  destruct (list_ascii_of_string (zfill 2 (minute t))) as [|b1 [|b2 [|]]];
    try (discriminate H2; lia).
  destruct (list_ascii_of_string (zfill 2 (second t))) as [|c1 [|c2 [|]]];
    try (discriminate H3; lia).
  simpl.
  apply andb_prop in H1 as [-> ->]; [|lia].
  apply andb_prop in H2 as [-> ->]; [|lia].
  apply andb_prop in H3 as [-> ->]; [|lia].
  reflexivity.
Qed.

Section chat.
Context {PS : PyStr}.

(** C4 (amended). A chat message of a client is sent, once, to the socket of
    every registry entry that a broadcast reaches, in registry order, the
    sender's own entry included: the frame is
    [{type: chat, username, message, timestamp}] and the timestamp has the
    shape [dd:dd:dd]. A broadcast reaches every entry but one registered
    under [None]. Nothing of the server state changes. *)
Theorem chat_broadcast now srv username m message :
  valid_time (now 0) →
  obj_get m "type" = Some (JStr "chat") →
  obj_get m "message" = Some message →
  ∃ ts,
    wf_timestamp ts = true
    ∧ process_message now srv username (JObj m)
      = Some (srv,
              map (λ kv, TcpSend (tcp_socket kv.2)
                           (JObj [("type", JStr "chat");
                                  ("username", ident_json username);
                                  ("message", message);
                                  ("timestamp", JStr ts)]))
                (audience srv))
    ∧ ((∀ k v, In (k, v) (clients srv) → k ≠ IdNull) →
       audience srv = clients srv)
    ∧ (∀ info, In (username, info) (clients srv) → username ≠ IdNull →
         In (TcpSend (tcp_socket info)
               (JObj [("type", JStr "chat");
                      ("username", ident_json username);
                      ("message", message);
                      ("timestamp", JStr ts)]))
            (map (λ kv, TcpSend (tcp_socket kv.2)
                          (JObj [("type", JStr "chat");
                                 ("username", ident_json username);
                                 ("message", message);
                                 ("timestamp", JStr ts)]))
               (audience srv))).
Proof.
  intros Hnow Ht Hm. exists (strftime_HMS (now 0)).
  split; [by apply strftime_HMS_wf|]. split; [|split].
  - rewrite process_message_chat by done. rewrite Hm. simpl.
    by rewrite broadcast_message_all.
  - intros H. apply audience_all. intros k v Hin. apply py_eq_false.
    specialize (H k v Hin). by destruct k as [|[]| |].
  - intros info Hinfo Hnn. apply in_map_iff. exists (username, info).
    split; [done|]. unfold audience. apply filter_In. split; [done|].
    simpl. apply negb_true_iff, py_eq_false. by destruct username as [|[]| |].
Qed.
End chat.

Section chat_examples.
#[local] Existing Instance ascii_str.

Lemma chat_broadcast_witness :
  ∃ ts,
    wf_timestamp ts = true
    ∧ process_message sample_now sample_server (IdStr "Alice")
        (JObj [("type", JStr "chat"); ("message", JStr "hi")])
      = Some (sample_server,
              map (λ kv, TcpSend (tcp_socket kv.2)
                           (JObj [("type", JStr "chat");
                                  ("username", ident_json (IdStr "Alice"));
                                  ("message", JStr "hi");
                                  ("timestamp", JStr ts)]))
                (audience sample_server))
    ∧ ((∀ k v, In (k, v) (clients sample_server) → k ≠ IdNull) →
       audience sample_server = clients sample_server)
    ∧ (∀ info, In (IdStr "Alice", info) (clients sample_server) →
         IdStr "Alice" ≠ IdNull →
         In (TcpSend (tcp_socket info)
               (JObj [("type", JStr "chat");
                      ("username", ident_json (IdStr "Alice"));
                      ("message", JStr "hi");
                      ("timestamp", JStr ts)]))
            (map (λ kv, TcpSend (tcp_socket kv.2)
                          (JObj [("type", JStr "chat");
                                 ("username", ident_json (IdStr "Alice"));
                                 ("message", JStr "hi");
                                 ("timestamp", JStr ts)]))
               (audience sample_server))).
Proof.
  apply (chat_broadcast sample_now sample_server (IdStr "Alice"));
    [unfold valid_time; simpl; lia|reflexivity..].
Defined.

(** C4 as stated fails: with Alice and Bob registered, Alice's chat
    message is sent to Alice's own socket as well as to Bob's. *)
Lemma chat_echoed_to_sender :
  process_message sample_now sample_server (IdStr "Alice")
    (JObj [("type", JStr "chat"); ("message", JStr "hi")])
  = Some (sample_server,
          [TcpSend 1 (JObj [("type", JStr "chat"); ("username", JStr "Alice");
                            ("message", JStr "hi");
                            ("timestamp", JStr "09:03:07")]);
           TcpSend 2 (JObj [("type", JStr "chat"); ("username", JStr "Alice");
                            ("message", JStr "hi");
                            ("timestamp", JStr "09:03:07")])])
  ∧ dict_get (clients sample_server) (IdStr "Alice") = Some (sample_info 1)
  ∧ tcp_socket (sample_info 1) = 1.
Proof. repeat split. Qed.
End chat_examples.

(** ** Private chat *)

Section private_chat.
Context {PS : PyStr}.

Lemma process_message_private_chat now srv username m :
  obj_get m "type" = Some (JStr "private_chat") →
  process_message now srv username (JObj m) =
  (to_user ← get_to_user m;
   let text := default (JStr "") (obj_get m "message") in
   if bool_decide (to_user = "") || bool_decide (IdStr to_user = username)
   then Some (srv, [])
   else
     canonical_to ← lookup_case_insensitive (dict_keys (clients srv)) to_user;
     match canonical_to with
     | Some key =>
         if bool_decide (key = "") then
           Some (srv,
                 send_to_user srv username (msg_not_online to_user)
                 ++ send_to_user srv username
                      (msg_private_chat username to_user text
                         (strftime_HMS (now 0))))
         else
           Some (srv,
                 broadcast_message srv
                   (msg_private_chat username key text
                      (strftime_HMS (now 0))) IdNull
                 ++ send_to_user srv username
                      (msg_private_chat username key text
                         (strftime_HMS (now 1))))
     | None =>
         Some (srv,
               send_to_user srv username (msg_not_online to_user)
               ++ send_to_user srv username
                    (msg_private_chat username to_user text
                       (strftime_HMS (now 0))))
     end).
Proof. intros H. unfold process_message. rewrite H. reflexivity. Qed.




End private_chat.

Section private_chat_examples.
#[local] Existing Instance ascii_str.


End private_chat_examples.

(** ** Media relay *)

Lemma struct_pack_unpack bo n hdr :
  struct_pack_I bo n = Some hdr →
  length hdr = 4 ∧ struct_unpack_I bo hdr = Some n.
Proof.
  intros Hpack. assert (n < 4294967296)%N as Hn.
  { unfold struct_pack_I in Hpack.
    destruct (n <? 4294967296)%N eqn:E; [by apply N.ltb_lt|done]. }
  destruct (struct_unpack_pack bo n Hn) as (hdr' & Hpack' & Hlen & Hun).
  rewrite Hpack in Hpack'. by injection Hpack' as ->.
Qed.

Lemma media_relay_header bo endpoint srv hdr name (payload : bytes) s :
  struct_pack_I bo (N.of_nat (length name)) = Some hdr →
  decode_utf8 name = Some s →
  media_relay bo endpoint srv (hdr ++ name ++ payload)
  = Some (flat_map
            (λ '(client_name, client_info),
               if negb (py_eq client_name (IdStr s))
                  && py_truthy_addr (endpoint client_info)
               then [UdpSend (default [] (endpoint client_info))
                       (hdr ++ name ++ payload)]
               else [])
            (clients srv)).
Proof.
  intros [Hlen Hun]%struct_pack_unpack Hdec.
  set (datagram := hdr ++ name ++ payload).
  assert ((length datagram <? 4) = false) as Hlt1.
  { apply Nat.ltb_ge. unfold datagram. rewrite length_app. lia. }
  assert (take 4 datagram = hdr) as Htake.
  { unfold datagram. rewrite <- Hlen. apply take_app_length. }
  assert ((length datagram <? 4 + length name) = false) as Hlt2.
  { apply Nat.ltb_ge. unfold datagram. rewrite !length_app. lia. }
  assert (take (length name) (drop 4 datagram) = name) as Hname.
  { unfold datagram. rewrite <- Hlen at 1.
    by rewrite drop_app_length, take_app_length. }
  unfold media_relay. rewrite Hlt1, Htake, Hun. cbv [mbind option_bind].
  rewrite Nat2N.id, Hlt2, Hname, Hdec. reflexivity.
Qed.

Lemma media_relay_sends endpoint (s : string) (datagram : bytes)
    (regs : list (ident * ClientInfo)) dest d :
  In (UdpSend dest d)
     (flat_map
        (λ '(client_name, client_info),
           if negb (py_eq client_name (IdStr s))
              && py_truthy_addr (endpoint client_info)
           then [UdpSend (default [] (endpoint client_info)) datagram]
           else [])
        regs)
  ↔ d = datagram ∧ dest ≠ []
    ∧ ∃ client_name client_info,
        In (client_name, client_info) regs ∧ client_name ≠ IdStr s
        ∧ endpoint client_info = Some dest.
Proof.
  rewrite in_flat_map. split.
  - intros ([client_name client_info] & Hin & Hsend).
    destruct (py_eq client_name (IdStr s)) eqn:E; [done|].
    assert (client_name ≠ IdStr s) as Hne.
    { intros H. apply py_eq_IdStr in H. congruence. }
    simpl in Hsend.
    destruct (endpoint client_info) as [[|a l]|] eqn:Ha; simpl in Hsend;
      try done.
    destruct Hsend as [[= <- <-]|[]].
    split; [done|]. split; [done|]. by exists client_name, client_info.
  - intros (-> & Hdest & client_name & client_info & Hin & Hne & Ha).
    exists (client_name, client_info). split; [done|].
    assert (py_eq client_name (IdStr s) = false) as ->.
    { destruct (py_eq client_name (IdStr s)) eqn:E; [|done].
      by apply py_eq_IdStr in E. }
    simpl. rewrite Ha.
    destruct dest; [done|]. by left.
Qed.

Lemma media_relay_count endpoint (s : string) (datagram : bytes)
    (regs : list (ident * ClientInfo)) :
  length
    (flat_map
       (λ '(client_name, client_info),
          if negb (py_eq client_name (IdStr s))
             && py_truthy_addr (endpoint client_info)
          then [UdpSend (default [] (endpoint client_info)) datagram]
          else [])
       regs)
  = length (filter (λ kv, kv.1 ≠ IdStr s ∧ py_truthy_addr (endpoint kv.2) = true) regs).
Proof.
  induction regs as [|[k v] l IH]; [done|]. simpl.
  rewrite length_app, IH, filter_cons. simpl.
  destruct (decide (k = IdStr s)) as [->|Hne].
  - rewrite py_eq_refl. simpl.
    rewrite decide_False; [done|]. by intros [? _].
  - assert (py_eq k (IdStr s) = false) as ->.
    { destruct (py_eq k (IdStr s)) eqn:E; [|done]. by apply py_eq_IdStr in E. }
    simpl. destruct (py_truthy_addr (endpoint v)).
    + by rewrite decide_True.
    + rewrite decide_False; [done|]. by intros [_ ?].
Qed.

Lemma media_relay_short bo endpoint srv (datagram : bytes) :
  (length datagram < 4 → media_relay bo endpoint srv datagram = Some [])
  ∧ (∀ n, struct_unpack_I bo (take 4 datagram) = Some n →
          length datagram < 4 + N.to_nat n →
          media_relay bo endpoint srv datagram = Some []).
Proof.
  unfold media_relay. split.
  - intros H. apply Nat.ltb_lt in H. by rewrite H.
  - intros n Hun H. destruct (length datagram <? 4); [done|].
    rewrite Hun. cbv [mbind option_bind]. apply Nat.ltb_lt in H. by rewrite H.
Qed.

Section media.
Variable bo : byteorder.
Variable endpoint : ClientInfo → option (list json).
Variable srv : Server.

Lemma media_relay_fan_out hdr name (payload : bytes) s :
  struct_pack_I bo (N.of_nat (length name)) = Some hdr →
  decode_utf8 name = Some s →
  ∃ out,
    media_relay bo endpoint srv (hdr ++ name ++ payload) = Some out
    ∧ (∀ dest d,
         In (UdpSend dest d) out
         ↔ d = hdr ++ name ++ payload ∧ dest ≠ []
           ∧ ∃ client_name client_info,
               In (client_name, client_info) (clients srv)
               ∧ client_name ≠ IdStr s ∧ endpoint client_info = Some dest)
    ∧ length out
      = length (filter (λ kv, kv.1 ≠ IdStr s ∧ py_truthy_addr (endpoint kv.2) = true)
                  (clients srv)).
Proof.
  intros Hpack Hdec. eexists. split; [by apply media_relay_header|].
  split; [intros; apply media_relay_sends|apply media_relay_count].
Qed.
End media.

(** C9. A video or audio datagram of the shape header, identity, payload,
    whose header is the length of the UTF-8 identity [s] as a native
    4-byte integer: each relay sends the whole datagram, unchanged, once for
    every registry entry whose identity differs from [s] and whose endpoint
    of that kind is registered, to that endpoint, and makes no other send;
    the entry of [s] itself is never a destination. A datagram shorter than
    the 4-byte length, or shorter than the identity it declares, is skipped
    by [continue]: no error, nothing sent. *)
Theorem media_fan_out bo srv hdr name (payload : bytes) s :
  struct_pack_I bo (N.of_nat (length name)) = Some hdr →
  decode_utf8 name = Some s →
  (∃ out,
     handle_video_stream bo srv (hdr ++ name ++ payload) = Some out
     ∧ (∀ dest d,
          In (UdpSend dest d) out
          ↔ d = hdr ++ name ++ payload ∧ dest ≠ []
            ∧ ∃ client_name client_info,
                In (client_name, client_info) (clients srv)
                ∧ client_name ≠ IdStr s ∧ video_addr client_info = Some dest)
     ∧ length out
       = length (filter (λ kv, kv.1 ≠ IdStr s
                               ∧ py_truthy_addr (video_addr kv.2) = true)
                   (clients srv)))
  ∧ (∃ out,
       handle_audio_stream bo srv (hdr ++ name ++ payload) = Some out
       ∧ (∀ dest d,
            In (UdpSend dest d) out
            ↔ d = hdr ++ name ++ payload ∧ dest ≠ []
              ∧ ∃ client_name client_info,
                  In (client_name, client_info) (clients srv)
                  ∧ client_name ≠ IdStr s ∧ audio_addr client_info = Some dest)
       ∧ length out
         = length (filter (λ kv, kv.1 ≠ IdStr s
                                 ∧ py_truthy_addr (audio_addr kv.2) = true)
                     (clients srv)))
  ∧ (∀ datagram : bytes,
       length datagram < 4 →
       handle_video_stream bo srv datagram = Some []
       ∧ handle_audio_stream bo srv datagram = Some [])
  ∧ (∀ (datagram : bytes) n,
       struct_unpack_I bo (take 4 datagram) = Some n →
       length datagram < 4 + N.to_nat n →
       handle_video_stream bo srv datagram = Some []
       ∧ handle_audio_stream bo srv datagram = Some []).
Proof.
  intros Hpack Hdec. unfold handle_video_stream, handle_audio_stream.
  split; [by apply media_relay_fan_out|].
  split; [by apply media_relay_fan_out|]. split.
  - intros datagram H. split; by apply media_relay_short.
  - intros datagram n Hun H.
    split; by apply (proj2 (media_relay_short _ _ _ _) n).
Qed.

Lemma media_fan_out_witness :
  struct_pack_I little 3 = Some [x03; x00; x00; x00]
  ∧ decode_utf8 [x62; x6f; x62] = Some "bob"
  ∧ ∃ out,
      handle_video_stream little sample_media_server
        ([x03; x00; x00; x00] ++ [x62; x6f; x62] ++ [xff; xd8]) = Some out
      ∧ (∀ dest d,
           In (UdpSend dest d) out
           ↔ d = [x03; x00; x00; x00] ++ [x62; x6f; x62] ++ [xff; xd8]
             ∧ dest ≠ []
             ∧ ∃ client_name client_info,
                 In (client_name, client_info) (clients sample_media_server)
                 ∧ client_name ≠ IdStr "bob" ∧ video_addr client_info = Some dest)
      ∧ length out
        = length (filter (λ kv, kv.1 ≠ IdStr "bob"
                                ∧ py_truthy_addr (video_addr kv.2) = true)
                    (clients sample_media_server)).
Proof.
  split; [reflexivity|]. split; [reflexivity|].
  apply (media_fan_out little sample_media_server [x03; x00; x00; x00]
           [x62; x6f; x62] [xff; xd8] "bob"); reflexivity.
Defined.

Example media_fan_out_sample :
  handle_video_stream little sample_media_server
    ([x03; x00; x00; x00] ++ [x62; x6f; x62] ++ [xff; xd8])
  = Some [UdpSend [JStr "10.0.0.1"; JInt 6001]
            [x03; x00; x00; x00; x62; x6f; x62; xff; xd8]].
Proof. reflexivity. Qed.

(** ** What a message can change *)

Ltac pm_cases :=
  repeat match goal with
         | H : ?t = Some _ |- _ =>
             match t with
             | context [if ?b then _ else _] => destruct b eqn:?
             | context [match ?x with _ => _ end] => destruct x eqn:?
             end
         | H : _ ≫= _ = Some _ |- _ =>
             apply bind_Some in H as (? & ? & H)
         | H : Some _ = Some _ |- _ => injection H as <- <-
         | H : None = Some _ |- _ => discriminate H
         end.

Section system.
Context {PS : PyStr}.

Lemma process_message_effect now srv username msg srv' out :
  process_message now srv username msg = Some (srv', out) →
  pm_effect srv username srv'.
Proof.
  unfold process_message, pm_effect. intros H.
  destruct msg as [| | | | |m]; try done.
  pm_cases; simpl; eauto 10.
  all: try match goal with
           | |- context [set_video_addr ?c ?x] =>
               split; [right; exists c, (set_video_addr c x); by repeat split
                      |by left]
           | |- context [set_audio_addr ?c ?x] =>
               split; [right; exists c, (set_audio_addr c x); by repeat split
                      |by left]
           end.
  all: split; [by left|]; auto.
Qed.

Lemma process_message_files now srv username msg srv' out key sock :
  process_message now srv username msg = Some (srv', out) →
  uploads key (Frame sock (Some msg) now) = false →
  shared_files srv' !! key = shared_files srv !! key.
Proof.
  unfold process_message, uploads. intros H Hup.
  destruct msg as [| | | | |m]; try done.
  pm_cases; simpl; try done.
  match goal with
  | Hid : obj_get m "file_id" = Some _, Hk : dict_key _ = Some _ |- _ =>
      rewrite Hid in Hup; simpl in Hup; rewrite Hk in Hup
  end.
  apply bool_decide_eq_false in Hup. apply lookup_insert_ne. congruence.
Qed.

(** ** Steps of the system *)

Lemma teardown_truthy srv username :
  py_truthy (ident_json username) = true →
  teardown srv username =
  if py_eq (presenter srv) username
  then (set_presenter (set_clients srv (dict_del (clients srv) username)) IdNull,
        broadcast_message
          (set_presenter (set_clients srv (dict_del (clients srv) username))
             IdNull)
          (msg_presentation_stopped username) IdNull
        ++ broadcast_message
             (set_presenter (set_clients srv (dict_del (clients srv) username))
                IdNull)
             (msg_user_left username
                (users (set_clients srv (dict_del (clients srv) username))))
             IdNull)
  else (set_clients srv (dict_del (clients srv) username),
        broadcast_message (set_clients srv (dict_del (clients srv) username))
          (msg_user_left username
             (users (set_clients srv (dict_del (clients srv) username))))
          IdNull).
Proof.
  intros Hne. unfold teardown. rewrite Hne. simpl.
  by destruct (py_eq (presenter srv) username).
Qed.

Lemma teardown_falsy srv username :
  py_truthy (ident_json username) = false → teardown srv username = (srv, []).
Proof. intros H. unfold teardown. by rewrite H. Qed.

Lemma teardown_state srv username srv' out :
  py_truthy (ident_json username) = true →
  teardown srv username = (srv', out) →
  clients srv' = dict_del (clients srv) username
  ∧ (presenter srv' = presenter srv ∧ py_eq (presenter srv) username = false
     ∨ presenter srv' = IdNull)
  ∧ shared_files srv' = shared_files srv.
Proof.
  intros Hne. rewrite teardown_truthy by done.
  destruct (py_eq (presenter srv) username) eqn:E;
    intros [= <- <-]; simpl; auto.
Qed.

Lemma step_frame_cases sys sock msg now sys' out :
  step sys (Frame sock msg now) = Some (sys', out) →
  ∃ username,
    handlers sys !! sock = Some username
    ∧ ((∃ m, msg = Some m
             ∧ process_message now (server sys) username m
               = Some (server sys', out)
             ∧ handlers sys' = handlers sys)
       ∨ (teardown (server sys) username = (server sys', out)
          ∧ handlers sys' = delete sock (handlers sys))).
Proof.
  unfold step. intros H.
  destruct (handlers sys !! sock) as [username|] eqn:Hh; [|done].
  exists username. split; [done|]. cbn [mbind option_bind] in H.
  destruct (teardown (server sys) username) as [srv2 out2] eqn:Ht.
  destruct msg as [m|]; [|injection H as <- <-; by right].
  destruct (py_truthy m); [|injection H as <- <-; by right].
  destruct (process_message now (server sys) username m) as [[srv1 out1]|] eqn:E.
  - injection H as <- <-. left. by exists m.
  - injection H as <- <-. by right.
Qed.

Lemma step_connect_cases sys sock addr data sys' out :
  step sys (Connect sock addr data) = Some (sys', out) →
  handlers sys !! sock = None
  ∧ ((register_request data ≫= hashable = None ∧ sys' = sys ∧ out = [])
     ∨ ∃ username,
         register_request data ≫= hashable = Some username
         ∧ register (server sys) sock addr username = (server sys', out)
         ∧ handlers sys' = <[sock := username]> (handlers sys)).
Proof.
  unfold step. intros H.
  destruct (handlers sys !! sock) eqn:Hh; [done|]. split; [done|].
  destruct (register_request data ≫= hashable) as [username|].
  - right. exists username. split; [done|].
    destruct (register (server sys) sock addr username) as [srv1 out1].
    by injection H as <- <-.
  - left. by injection H as <- <-.
Qed.
End system.

(** ** The invariant is kept *)

Section dict_entries.
Context {V : Type}.
Implicit Types (d : list (ident * V)) (k u : ident) (v i : V).

Lemma dict_set_In_back d k v info u i :
  dict_get d k = Some info → In (u, i) (dict_set d k v) →
  In (u, i) d ∨ (i = v ∧ In (u, info) d).
Proof.
  induction d as [|[k0 v0] d IH]; simpl; [done|].
  destruct (py_eq k0 k) eqn:E.
  - intros [= ->] [[= <- <-]|Hin]; [right; split; [done|by left]|].
    left. by right.
  - intros Hget [[= <- <-]|Hin]; [left; by left|].
    destruct (IH Hget Hin) as [?|[? ?]]; [left; by right|right; split; [done|by right]].
Qed.

Lemma dict_set_In_forth d k v info u i :
  dict_get d k = Some info → In (u, i) d →
  In (u, i) (dict_set d k v) ∨ (i = info ∧ In (u, v) (dict_set d k v)).
Proof.
  induction d as [|[k0 v0] d IH]; simpl; [done|].
  destruct (py_eq k0 k) eqn:E.
  - intros [= ->] [[= <- <-]|Hin]; [right; split; [done|by left]|].
    left. by right.
  - intros Hget [[= <- <-]|Hin]; [left; by left|].
    destruct (IH Hget Hin) as [?|[? ?]]; [left; by right|right; split; [done|by right]].
Qed.

Lemma dict_del_In d k u i : In (u, i) (dict_del d k) → In (u, i) d.
Proof.
  induction d as [|[k0 v0] d IH]; simpl; [done|].
  destruct (py_eq k0 k); [by right|]. intros [?|?]; [by left|right; auto].
Qed.

Lemma dict_del_In_key d k u i :
  NoDup (ident_key <$> dict_keys d) → In (u, i) (dict_del d k) →
  ident_key u ≠ ident_key k.
Proof.
  unfold dict_keys. induction d as [|[k0 v0] d IH]; simpl; [done|].
  intros [Hnot Hnd]%NoDup_cons. destruct (py_eq k0 k) eqn:E.
  - apply py_eq_true in E. intros Hin Hk. apply Hnot. rewrite E, <- Hk.
    apply list_elem_of_fmap. exists u. split; [done|].
    apply list_elem_of_fmap. exists (u, i). split; [done|].
    by apply list_elem_of_In.
  - apply py_eq_false in E. intros [[= <- <-]|Hin]; [done|]. by apply IH.
Qed.

Lemma dict_del_In_keep d k u i :
  In (u, i) d → ident_key u ≠ ident_key k → In (u, i) (dict_del d k).
Proof.
  induction d as [|[k0 v0] d IH]; simpl; [done|].
  destruct (py_eq k0 k) eqn:E.
  - apply py_eq_true in E. intros [[= <- <-]|Hin] Hne; [done|done].
  - intros [[= <- <-]|Hin] Hne; [by left|right; by apply IH].
Qed.

Lemma dict_In_key_inj d u i u' i' :
  NoDup (ident_key <$> dict_keys d) → In (u, i) d → In (u', i') d →
  ident_key u = ident_key u' → u = u' ∧ i = i'.
Proof.
  unfold dict_keys. induction d as [|[k0 v0] d IH]; simpl; [done|].
  intros [Hnot Hnd]%NoDup_cons [[= <- <-]|Hin] [[= <- <-]|Hin'] Hk; [done|..].
  - exfalso. apply Hnot. rewrite Hk. apply list_elem_of_fmap. exists u'.
    split; [done|]. apply list_elem_of_fmap. exists (u', i').
    split; [done|]. by apply list_elem_of_In.
  - exfalso. apply Hnot. rewrite <- Hk. apply list_elem_of_fmap. exists u.
    split; [done|]. apply list_elem_of_fmap. exists (u, i).
    split; [done|]. by apply list_elem_of_In.
  - by apply IH.
Qed.
End dict_entries.

Lemma sys_inv_init : sys_inv init_system.
Proof.
  split; simpl; try done; [apply NoDup_nil_2|by left].
Qed.

Lemma sys_inv_register sys sys' sock username info :
  sys_inv sys → handlers sys !! sock = None →
  py_truthy (ident_json username) = true →
  dict_get (clients (server sys)) username = None →
  tcp_socket info = sock →
  clients (server sys') = dict_set (clients (server sys)) username info →
  presenter (server sys') = presenter (server sys) →
  handlers sys' = <[sock := username]> (handlers sys) →
  sys_inv sys'.
Proof.
  intros [Hnd Heh Hhe Hne Hpr] Hfree Hu Hnew Hsock Hc Hp Hh.
  rewrite (dict_keys_set_absent _ _ _ Hnew) in Hc.
  split; rewrite ?Hc, ?Hp, ?Hh.
  - rewrite <- (dict_keys_set_absent _ _ _ Hnew).
    by apply dict_keys_set_NoDup.
  - intros u i [Hin|[[= <- <-]|[]]]%in_app_or.
    + rewrite lookup_insert_ne; [by apply Heh|].
      intros Heq. specialize (Heh _ _ Hin). congruence.
    + rewrite Hsock. apply lookup_insert_eq.
  - intros s u. destruct (decide (sock = s)) as [<-|Hneq].
    + rewrite lookup_insert_eq. intros [= <-]. exists info.
      split; [|done]. apply in_or_app. right. by left.
    + rewrite lookup_insert_ne by done. intros Hs.
      destruct (Hhe _ _ Hs) as (i & Hi & Hsi). exists i.
      split; [|done]. apply in_or_app. by left.
  - intros s u. destruct (decide (sock = s)) as [<-|Hneq].
    + rewrite lookup_insert_eq. by intros [= <-].
    + rewrite lookup_insert_ne by done. apply Hne.
  - destruct Hpr as [?|[i Hi]]; [by left|]. right. exists i.
    apply in_or_app. by left.
Qed.

Lemma sys_inv_process sys sys' sock username :
  sys_inv sys → handlers sys !! sock = Some username →
  pm_effect (server sys) username (server sys') →
  handlers sys' = handlers sys →
  sys_inv sys'.
Proof.
  intros [Hnd Heh Hhe Hne Hpr] Hsock [Hc Hp] Hh.
  assert (∀ u i', In (u, i') (clients (server sys')) →
            ∃ i, In (u, i) (clients (server sys))
                 ∧ tcp_socket i' = tcp_socket i) as Hback.
  { intros u i' Hu. destruct Hc as [Hc|(i & i2 & Hi & Hs & Hc)];
      rewrite Hc in Hu; [by exists i'|].
    destruct (dict_set_In_back _ _ _ _ _ _ Hi Hu) as [?|[-> ?]];
      [by exists i'|by exists i]. }
  assert (∀ u i, In (u, i) (clients (server sys)) →
            ∃ i', In (u, i') (clients (server sys'))
                  ∧ tcp_socket i' = tcp_socket i) as Hforth.
  { intros u i Hu. destruct Hc as [Hc|(i1 & i2 & Hi & Hs & Hc)];
      rewrite Hc; [by exists i|].
    destruct (dict_set_In_forth _ _ i2 _ _ _ Hi Hu) as [?|[-> ?]];
      [by exists i|by exists i2]. }
  split; rewrite ?Hh.
  - destruct Hc as [->|(i & i' & Hi & Hs & ->)]; [done|].
    by apply dict_keys_set_NoDup.
  - intros u i' Hu. destruct (Hback _ _ Hu) as (i & Hi & ->). by apply Heh.
  - intros s u Hs. destruct (Hhe _ _ Hs) as (i & Hi & Hsi).
    destruct (Hforth _ _ Hi) as (i' & Hi' & Hsi'). exists i'.
    split; [done|]. congruence.
  - done.
  - destruct Hp as [Hp|[[_ Hp]|[_ Hp]]]; rewrite Hp.
    + destruct Hpr as [?|[i Hi]]; [by left|]. right.
      destruct (Hforth _ _ Hi) as (i' & Hi' & _). by exists i'.
    + right. destruct (Hhe _ _ Hsock) as (i & Hi & _).
      destruct (Hforth _ _ Hi) as (i' & Hi' & _). by exists i'.
    + by left.
Qed.

Lemma sys_inv_teardown sys sys' sock username :
  sys_inv sys → handlers sys !! sock = Some username →
  clients (server sys') = dict_del (clients (server sys)) username →
  (presenter (server sys') = presenter (server sys)
   ∧ py_eq (presenter (server sys)) username = false
   ∨ presenter (server sys') = IdNull) →
  handlers sys' = delete sock (handlers sys) →
  sys_inv sys'.
Proof.
  intros [Hnd Heh Hhe Hne Hpr] Hsock Hc Hp Hh.
  split; rewrite ?Hc, ?Hh.
  - by apply dict_keys_del_NoDup.
  - intros u i Hu. pose proof (dict_del_In_key _ _ _ _ Hnd Hu) as Hk.
    apply dict_del_In in Hu. specialize (Heh _ _ Hu).
    rewrite lookup_delete_ne; [done|]. congruence.
  - intros s u Hs. destruct (decide (sock = s)) as [<-|Hneq].
    + by rewrite lookup_delete_eq in Hs.
    + rewrite lookup_delete_ne in Hs by done.
      destruct (Hhe _ _ Hs) as (i & Hi & Hsi). exists i. split; [|done].
      apply dict_del_In_keep; [done|]. intros Hk.
      destruct (Hhe _ _ Hsock) as (i0 & Hi0 & Hsi0).
      destruct (dict_In_key_inj _ _ _ _ _ Hnd Hi Hi0 Hk) as [-> ->]. congruence.
  - intros s u Hs. destruct (decide (sock = s)) as [<-|Hneq].
    + by rewrite lookup_delete_eq in Hs.
    + rewrite lookup_delete_ne in Hs by done. by eapply Hne.
  - destruct Hp as [[Hp Hnot]|Hp]; rewrite Hp; [|by left].
    destruct Hpr as [?|[i Hi]]; [by left|]. right. exists i.
    apply dict_del_In_keep; [done|]. by apply py_eq_false.
Qed.

Section invariant.
Context {PS : PyStr}.

Lemma step_inv sys ev sys' out :
  sys_inv sys → fresh_registration sys ev → step sys ev = Some (sys', out) →
  sys_inv sys'.
Proof.
  intros Hinv Hok Hstep. destruct ev as [sock addr data|sock msg now].
  - apply step_connect_cases in Hstep
      as [Hfree [(_ & -> & _)|(username & Hreq & Hreg & Hh)]]; [done|].
    simpl in Hok. rewrite Hreq in Hok. destruct Hok as [Hne Hnew].
    unfold register in Hreg. injection Hreg as Hsrv _.
    apply (sys_inv_register sys sys' sock username
             {| tcp_socket := sock; address := addr;
                video_addr := None; audio_addr := None |});
      first [done|by rewrite <- Hsrv].
  - apply step_frame_cases in Hstep
      as (username & Hsock & [(m & -> & Hpm & Hh)|[Ht Hh]]).
    + apply process_message_effect in Hpm.
      by eapply sys_inv_process.
    + apply teardown_state in Ht as (Hc & Hp & _);
        [|by eapply (inv_truthy _ Hinv)].
      by eapply sys_inv_teardown.
Qed.

Lemma reachable_inv sys : reachable fresh_registration sys → sys_inv sys.
Proof.
  induction 1 as [|sys ev sys' out _ IH Hok Hstep].
  - apply sys_inv_init.
  - by eapply step_inv.
Qed.
End invariant.

Lemma sys_inv_dict_get sys sock u :
  sys_inv sys → handlers sys !! sock = Some u →
  ∃ info, dict_get (clients (server sys)) u = Some info ∧ tcp_socket info = sock.
Proof.
  intros Hinv Hs. destruct (inv_handler_entry _ Hinv _ _ Hs) as (i & Hi & Hsi).
  exists i. split; [|done]. apply dict_get_In; [apply (inv_nodup _ Hinv)|done].
Qed.

Lemma sys_inv_no_null sys k v :
  sys_inv sys → In (k, v) (clients (server sys)) → py_eq k IdNull = false.
Proof.
  intros Hinv Hin. apply py_truthy_not_null.
  eapply (inv_truthy _ Hinv). by apply (inv_entry_handler _ Hinv).
Qed.

Lemma sys_inv_audience sys :
  sys_inv sys → audience (server sys) = clients (server sys).
Proof. intros Hinv. apply audience_all. intros k v. by apply sys_inv_no_null. Qed.


(** ** Counting the frames of a broadcast *)





Lemma sockets_NoDup (h : gmap Socket ident) (regs : list (ident * ClientInfo)) :
  NoDup (ident_key <$> dict_keys regs) →
  (∀ u info, In (u, info) regs → h !! tcp_socket info = Some u) →
  NoDup (sockets regs).
Proof.
  unfold dict_keys, sockets. induction regs as [|[k v] l IH]; simpl.
  - intros _ _. apply NoDup_nil_2.
  - intros [Hnot Hnd]%NoDup_cons Hh. apply NoDup_cons. split.
    + intros Hin%list_elem_of_In. apply in_map_iff in Hin as ([k' v'] & Hs & Hin).
      simpl in Hs. apply Hnot. apply list_elem_of_fmap. exists k'.
      pose proof (Hh k v (or_introl eq_refl)) as H1.
      pose proof (Hh k' v' (or_intror Hin)) as H2.
      split; [congruence|]. apply list_elem_of_fmap. exists (k', v').
      split; [done|]. by apply list_elem_of_In.
    + apply IH; [done|]. intros u info Hin. apply Hh. by right.
Qed.

Lemma sys_inv_sockets sys : sys_inv sys → NoDup (sockets (clients (server sys))).
Proof.
  intros Hinv. apply (sockets_NoDup (handlers sys)).
  - apply (inv_nodup _ Hinv).
  - apply (inv_entry_handler _ Hinv).
Qed.

(** ** Reachable states *)

Section runs.
Context {PS : PyStr}.


End runs.

Section sample_runs.
#[local] Existing Instance ascii_str.

Lemma alice_system_reachable : reachable fresh_registration alice_system.
Proof.
  eapply (reach_step _ init_system
            (Connect 1 sample_addr (register_frame (JStr "Alice")))
            alice_system);
    [apply reach_init|split; reflexivity|reflexivity].
Qed.

Lemma sample_system_reachable : reachable fresh_registration sample_system.
Proof.
  eapply (reach_step _ alice_system
            (Connect 2 sample_addr (register_frame (JStr "bob")))
            sample_system);
    [apply alice_system_reachable|split; reflexivity|reflexivity].
Qed.

Lemma presenting_system_reachable : reachable fresh_registration presenting_system.
Proof.
  eapply (reach_step _ sample_system
            (Frame 1 (Some (JObj [("type", JStr "start_presentation")]))
               sample_now) presenting_system);
    [apply sample_system_reachable|exact I|reflexivity].
Qed.

End sample_runs.

(** ** Presenter exclusivity *)


















Section exclusivity.
Context {PS : PyStr}.


End exclusivity.

Lemma run_schedule_completes u1 u2 srv :
  ∃ sh,
    run_schedule u1 u2 (start_config srv)
      (repeat true 6 ++ repeat false 6) = (Finished, Finished, sh).
Proof.
  unfold run_schedule, start_config. simpl.
  destruct (presenter srv) eqn:Hp; simpl; rewrite ?Hp;
    destruct u1; simpl; rewrite ?Hp; by eexists.
Qed.

Section exclusivity_examples.
#[local] Existing Instance ascii_str.


(** The run of the witness: Alice's thread takes the lock first, Bob's
    waits; Alice becomes the presenter and Bob is denied on his own
    connection. *)
Example presenter_exclusivity_sample :
  run_schedule (IdStr "Alice") (IdStr "bob")
    (start_config (server sample_system))
    [true; false; true; true; false; true; true; true;
     false; false; false; false]
  = (Finished, Finished,
     {| sh_server := set_presenter sample_server (IdStr "Alice");
        sh_locked := false;
        sh_out :=
          [TcpSend 1 (JObj [("type", JStr "presentation_started");
                            ("username", JStr "Alice")]);
           TcpSend 2 (JObj [("type", JStr "presentation_started");
                            ("username", JStr "Alice")]);
           TcpSend 1 (JObj [("type", JStr "presentation_control");
                            ("status", JStr "started")]);
           TcpSend 2 (JObj [("type", JStr "presentation_control");
                            ("status", JStr "denied");
                            ("message",
                             JStr "Alice is currently presenting")])] |}).
Proof. reflexivity. Qed.

End exclusivity_examples.

(** ** Forced stop *)

Section forced_stop.
Context {PS : PyStr}.





End forced_stop.

Section forced_stop_examples.
#[local] Existing Instance ascii_str.


End forced_stop_examples.

(** ** File store *)

Lemma teardown_files srv username :
  shared_files (teardown srv username).1 = shared_files srv.
Proof.
  unfold teardown. destruct (negb (py_truthy (ident_json username))); [done|].
  simpl. by destruct (py_eq (presenter srv) username).
Qed.

Section files.
Context {PS : PyStr}.

Lemma step_files sys ev sys' out key :
  step sys ev = Some (sys', out) → uploads key ev = false →
  shared_files (server sys') !! key = shared_files (server sys) !! key.
Proof.
  intros Hstep Hup. destruct ev as [sock addr data|sock msg now].
  - apply step_connect_cases in Hstep
      as [_ [(_ & -> & _)|(username & _ & Hreg & _)]]; [done|].
    unfold register in Hreg. by injection Hreg as <- _.
  - apply step_frame_cases in Hstep
      as (username & _ & [(m & -> & Hpm & _)|[Ht _]]).
    + by eapply process_message_files.
    + pose proof (teardown_files (server sys) username) as Hf.
      rewrite Ht in Hf. simpl in Hf. by rewrite Hf.
Qed.

Lemma run_files evs sys sys' out key :
  Forall (λ ev, uploads key ev = false) evs →
  run sys evs = Some (sys', out) →
  shared_files (server sys') !! key = shared_files (server sys) !! key.
Proof.
  intros Hevs. revert sys out. induction Hevs as [|ev evs Hev _ IH]; simpl.
  - by intros sys out [= <- <-].
  - intros sys out H.
    destruct (step sys ev) as [[sys1 out1]|] eqn:E; [|done]. simpl in H.
    destruct (run sys1 evs) as [[sys2 out2]|] eqn:E2; [|done].
    injection H as <- <-. rewrite (IH _ _ E2). by eapply step_files.
Qed.


End files.

Section files_examples.
#[local] Existing Instance ascii_str.



Example file_roundtrip_sample :
  ∃ sys1 out1,
    run sample_system
      [Frame 1 (Some (JObj [("type", JStr "file_upload");
                            ("file_id", JStr "f-1");
                            ("filename", JStr "notes.txt");
                            ("size", JInt 5);
                            ("data", JStr "aGVsbG8=")])) sample_now;
       Frame 2 (Some (JObj [("type", JStr "chat"); ("message", JStr "got it")]))
         sample_now]
    = Some (sys1, out1)
    ∧ step sys1
        (Frame 2 (Some (JObj [("type", JStr "file_download");
                              ("file_id", JStr "f-1")])) sample_now)
      = Some (sys1,
              [TcpSend 2 (JObj [("type", JStr "file_data");
                                ("file_id", JStr "f-1");
                                ("filename", JStr "notes.txt");
                                ("size", JInt 5);
                                ("data", JStr "aGVsbG8=")])]).
Proof. eexists _, _. split; reflexivity. Qed.
End files_examples.

(** ** Worked examples *)

Example recv_frame_two_segments :
  recv_frame little [[x02; x00; x00]; [x00; x7b]; [x7d; x01]]
  = (Some [x7b; x7d], [[x01]]).
Proof. reflexivity. Qed.

Example recv_frame_big_endian :
  frame_bytes big [x7b; x7d] = Some [x00; x00; x00; x02; x7b; x7d]
  ∧ recv_frame big [[x00; x00; x00; x02; x7b; x7d]] = (Some [x7b; x7d], []).
Proof. split; reflexivity. Qed.

Example recv_frame_short_read :
  recv_frame little [[x02; x00; x00; x00; x7b]] = (None, []).
Proof. reflexivity. Qed.

Example strftime_sample :
  strftime_HMS (Build_datetime 2024 5 17 9 3 7) = "09:03:07"
  ∧ strftime_YmdHMS (Build_datetime 2024 5 17 9 3 7) = "2024-05-17 09:03:07".
Proof. split; reflexivity. Qed.

Example decode_utf8_rejects_overlong : decode_utf8 [xc0; x80] = None.
Proof. reflexivity. Qed.

Example py_str_sample :
  py_str IdNull = "None" ∧ py_str (IdBool true) = "True"
  ∧ py_str (IdInt (-12)) = "-12" ∧ py_str (IdStr "Alice") = "Alice".
Proof. repeat split. Qed.

Example py_eq_sample :
  py_eq (IdBool true) (IdInt 1) = true ∧ py_eq (IdStr "1") (IdInt 1) = false
  ∧ py_eq IdNull (IdInt 0) = false.
Proof. repeat split. Qed.

Section examples.
#[local] Existing Instance ascii_str.

Example strip_lower_sample :
  str_strip "  Alice	" = "Alice" ∧ str_lower "Alice" = "alice".
Proof. split; reflexivity. Qed.

Example register_first_client :
  step init_system (Connect 1 sample_addr (register_frame (JStr "Alice")))
  = Some (alice_system,
          [TcpSend 1
             (JObj [("type", JStr "welcome");
                    ("message",
                     JStr "Welcome to LAN Communication Server, Alice!");
                    ("users", JArr [JStr "Alice"])])]).
Proof. reflexivity. Qed.

Example late_joiner_sees_presenter :
  ∃ sys', step presenting_system
            (Connect 3 sample_addr (register_frame (JStr "carol")))
  = Some (sys',
          [TcpSend 3
             (JObj [("type", JStr "welcome");
                    ("message",
                     JStr "Welcome to LAN Communication Server, carol!");
                    ("users", JArr [JStr "Alice"; JStr "bob"; JStr "carol"])]);
           TcpSend 3
             (JObj [("type", JStr "presentation_started");
                    ("username", JStr "Alice")]);
           TcpSend 1
             (JObj [("type", JStr "user_joined"); ("username", JStr "carol");
                    ("users", JArr [JStr "Alice"; JStr "bob"; JStr "carol"])]);
           TcpSend 2
             (JObj [("type", JStr "user_joined"); ("username", JStr "carol");
                    ("users", JArr [JStr "Alice"; JStr "bob"; JStr "carol"])])]).
Proof. eexists. reflexivity. Qed.

Example presenter_disconnects :
  ∃ sys', step presenting_system (Frame 1 None sample_now)
  = Some (sys',
          [TcpSend 2
             (JObj [("type", JStr "presentation_stopped");
                    ("username", JStr "Alice")]);
           TcpSend 2
             (JObj [("type", JStr "user_left"); ("username", JStr "Alice");
                    ("users", JArr [JStr "bob"])])])
  ∧ presenter (server sys') = IdNull.
Proof. eexists. split; reflexivity. Qed.

Example malformed_chat_ends_the_session :
  ∃ sys', step sample_system
            (Frame 2 (Some (JObj [("type", JStr "chat")])) sample_now)
  = Some (sys',
          [TcpSend 1
             (JObj [("type", JStr "user_left"); ("username", JStr "bob");
                    ("users", JArr [JStr "Alice"])])])
  ∧ handlers sys' !! 2 = None.
Proof. eexists. split; reflexivity. Qed.

(** A [register] frame whose [username] is a list cannot be a dict key:
    nothing is registered and nothing is sent. A number is registered like
    any name. *)
Example register_unhashable :
  step sample_system
    (Connect 3 sample_addr (register_frame (JArr [JStr "carol"])))
  = Some (sample_system, [])
  ∧ ∃ sys', step alice_system (Connect 3 sample_addr (register_frame (JInt 5)))
    = Some (sys',
            [TcpSend 3
               (JObj [("type", JStr "welcome");
                      ("message",
                       JStr "Welcome to LAN Communication Server, 5!");
                      ("users", JArr [JStr "Alice"; JInt 5])]);
             TcpSend 1
               (JObj [("type", JStr "user_joined"); ("username", JInt 5);
                      ("users", JArr [JStr "Alice"; JInt 5])])])
    ∧ handlers sys' !! 3 = Some (IdInt 5).
Proof. split; [reflexivity|]. eexists. split; reflexivity. Qed.
End examples.

(** * Further properties *)

(** ** Exact reads *)

Lemma recv_concat sock k p sock' :
  recv sock k = (p, sock') → concat sock = p ++ concat sock' ∧ length p ≤ k.
Proof.
  destruct sock as [|seg rest]; simpl.
  - intros [= <- <-]. simpl. split; [done|lia].
  - destruct (length seg <=? k) eqn:E; intros [= <- <-].
    + apply Nat.leb_le in E. by split.
    + simpl. rewrite app_assoc, take_drop. split; [done|].
      rewrite length_take. lia.
Qed.

Lemma recv_exact_loop_some (sock : Stream) (buf : bytes) (n : nat) d sock' :
  recv_exact_loop sock buf n = (Some d, sock') → length buf ≤ n →
  ∃ c, d = buf ++ c ∧ concat sock = c ++ concat sock' ∧ length d = n.
Proof.
  funelim (recv_exact_loop sock buf n); intros Hres Hle.
  - injection Hres as <- <-. exists []. rewrite app_nil_r.
    split; [done|]. split; [done|]. lia.
  - done.
  - apply recv_concat in Heq as [Hcat Hp].
    clear Heqcall.
    repeat match goal with E : lt_dec _ _ = _ |- _ => clear E end.
    destruct (H _ _ Hres) as (c & -> & Hc & Hlen).
    { rewrite length_app. lia. }
    exists ((b :: packet) ++ c). rewrite <- !app_assoc.
    split; [done|]. split; [|by rewrite <- app_assoc in Hlen].
    by rewrite Hcat, Hc.
Qed.

(** X1. [recv_exact(sock, n)] never returns partial data: a result is
    exactly [n] bytes long and is exactly what was taken off the stream. On
    a stream of non-empty segments the result is the first [n] bytes when
    the stream holds that many before the peer closes, and [None]
    otherwise. *)
Theorem recv_exact_all_or_nothing (sock : Stream) (n : nat) :
  (∀ d sock', recv_exact sock n = (Some d, sock') →
              length d = n ∧ concat sock = d ++ concat sock')
  ∧ (nonempty_segments sock →
     (n ≤ length (concat sock) →
      ∃ sock', recv_exact sock n = (Some (take n (concat sock)), sock')
               ∧ concat sock' = drop n (concat sock))
     ∧ (length (concat sock) < n → (recv_exact sock n).1 = None)).
Proof.
  split; [|intros Hne; split].
  - intros d sock' Hres. unfold recv_exact in Hres.
    apply recv_exact_loop_some in Hres as (c & -> & Hc & Hlen); [|simpl; lia].
    by split.
  - intros Hn.
    destruct (recv_exact_ok sock (take n (concat sock)) (drop n (concat sock)))
      as (sock' & E & Hc & _); [done|by rewrite take_drop|].
    rewrite length_take, Nat.min_l in E by done. by exists sock'.
  - by apply recv_exact_short.
Qed.

(** ** A stream of frames *)

Lemma recv_frame_ok_segments bo (hdr p rest : bytes) (sock : Stream) :
  length hdr = 4 → struct_unpack_I bo hdr = Some (N.of_nat (length p)) →
  p ≠ [] → nonempty_segments sock → concat sock = hdr ++ p ++ rest →
  ∃ sock', recv_frame bo sock = (Some p, sock') ∧ concat sock' = rest
           ∧ nonempty_segments sock'.
Proof.
  intros Hhdr Hun Hp Hne Hcat.
  destruct (recv_exact_ok sock hdr (p ++ rest)) as (sock1 & E1 & Hc1 & Hn1);
    [done..|].
  destruct (recv_exact_ok sock1 p rest) as (sock2 & E2 & Hc2 & Hn2); [done..|].
  exists sock2. split; [|done].
  unfold recv_frame. rewrite Hhdr in E1. rewrite E1.
  destruct hdr as [|h0 hdr']; [done|]. rewrite Hun, Nat2N.id, E2.
  by destruct p.
Qed.

Lemma frame_bytes_header bo p f :
  frame_bytes bo p = Some f →
  ∃ hdr, f = hdr ++ p ∧ length hdr = 4
         ∧ struct_unpack_I bo hdr = Some (N.of_nat (length p)).
Proof.
  unfold frame_bytes. intros H.
  destruct (struct_pack_I bo (N.of_nat (length p))) as [hdr|] eqn:E; [|done].
  injection H as <-. apply struct_pack_unpack in E as [Hlen Hun].
  by exists hdr.
Qed.

Lemma frames_length bo ps stream :
  frames bo ps = Some stream → length ps ≤ length stream.
Proof.
  revert stream. induction ps as [|p ps IH]; simpl; intros stream H.
  - lia.
  - destruct (frame_bytes bo p) as [f|] eqn:Ef; [|done]. simpl in H.
    destruct (frames bo ps) as [fs|] eqn:Efs; [|done]. injection H as <-.
    apply frame_bytes_header in Ef as (hdr & -> & Hlen & _).
    specialize (IH _ eq_refl). rewrite !length_app. lia.
Qed.

Lemma recv_frame_end bo (sock : Stream) :
  nonempty_segments sock → concat sock = [] → (recv_frame bo sock).1 = None.
Proof.
  intros Hne Hc. unfold recv_frame.
  pose proof (recv_exact_short sock 4 Hne) as E. rewrite Hc in E.
  specialize (E ltac:(simpl; lia)).
  by destruct (recv_exact sock 4) as [[l|] s].
Qed.

Section receive_loop.
Context {message : Type}.
Variable json_dumps : message → bytes.
Variable json_loads : bytes → option message.
Variable callback_raises : message → bool.

Lemma receive_tcp_loop_fuel_frames bo msgs :
  Forall (λ m, json_dumps m ≠ [] ∧ json_loads (json_dumps m) = Some m
               ∧ callback_raises m = false) msgs →
  ∀ fuel stream sock,
    length msgs < fuel →
    frames bo (map json_dumps msgs) = Some stream →
    nonempty_segments sock → concat sock = stream →
    receive_tcp_loop_fuel json_loads callback_raises fuel bo sock = msgs.
Proof.
  induction 1 as [|m msgs (Hne & Hrt & Hcb) _ IH];
    intros fuel stream sock Hfuel Hfr Hseg Hcat.
  - destruct fuel as [|fuel]; [simpl in Hfuel; lia|]. simpl in *.
    injection Hfr as <-.
    pose proof (recv_frame_end bo sock Hseg Hcat) as E.
    by destruct (recv_frame bo sock) as [[p|] s].
  - destruct fuel as [|fuel]; [simpl in Hfuel; lia|]. simpl in Hfr.
    destruct (frame_bytes bo (json_dumps m)) as [f|] eqn:Ef; [|done].
    simpl in Hfr.
    destruct (frames bo (map json_dumps msgs)) as [fs|] eqn:Efs; [|done].
    injection Hfr as <-.
    apply frame_bytes_header in Ef as (hdr & -> & Hlen & Hun).
    destruct (recv_frame_ok_segments bo hdr (json_dumps m) fs sock)
      as (sock' & E & Hc' & Hseg'); [done..|by rewrite Hcat, <- app_assoc|].
    simpl. rewrite E, Hrt, Hcb. f_equal.
    apply (IH fuel fs); [simpl in Hfuel; lia|done..].
Qed.
End receive_loop.

(** X2. The client's receive loop recovers a stream of frames: when the
    server has sent the messages [msgs] as consecutive frames and then
    closed, the loop hands exactly [msgs], in order, to the callback,
    however TCP cut the stream into segments. The messages are ones that the
    JSON codec round-trips and that the callback handles without raising. *)
Theorem receive_tcp_loop_frames {message : Type}
    (json_dumps : message → bytes) (json_loads : bytes → option message)
    (callback_raises : message → bool) bo msgs stream sock :
  Forall (λ m, json_dumps m ≠ [] ∧ json_loads (json_dumps m) = Some m
               ∧ callback_raises m = false) msgs →
  frames bo (map json_dumps msgs) = Some stream →
  nonempty_segments sock → concat sock = stream →
  receive_tcp_loop json_loads callback_raises bo sock = msgs.
Proof.
  intros Hmsgs Hfr Hseg Hcat. unfold receive_tcp_loop.
  eapply receive_tcp_loop_fuel_frames; [done| |done..].
  apply frames_length in Hfr. rewrite length_map in Hfr. rewrite Hcat. lia.
Qed.

Lemma receive_tcp_loop_frames_witness :
  receive_tcp_loop (λ b : bytes, Some b) (λ _, false) little
    [[x02; x00; x00]; [x00; x7b; x7d; x02]; [x00; x00; x00; x5b; x5d]]
  = [[x7b; x7d]; [x5b; x5d]].
Proof.
  apply (receive_tcp_loop_frames (λ b : bytes, b) (λ b, Some b) (λ _, false)
           little [[x7b; x7d]; [x5b; x5d]]
           [x02; x00; x00; x00; x7b; x7d; x02; x00; x00; x00; x5b; x5d]).
  - by repeat constructor.
  - reflexivity.
  - by repeat constructor.
  - reflexivity.
Defined.

Lemma recv_frame_progress bo (sock : Stream) p sock' :
  recv_frame bo sock = (Some p, sock') →
  length (concat sock') < length (concat sock).
Proof.
  unfold recv_frame.
  destruct (recv_exact sock 4) as [[hdr|] sock1] eqn:E1; [|done].
  apply recv_exact_loop_some in E1 as (c1 & -> & Hc & Hlen); [|simpl; lia].
  destruct c1 as [|h0 hdr']; [done|].
  destruct (struct_unpack_I bo ([] ++ h0 :: hdr')) as [n|]; [|done].
  destruct (recv_exact sock1 (N.to_nat n)) as [[d|] sock2] eqn:E2; [|done].
  apply recv_exact_loop_some in E2 as (c2 & -> & Hc2 & _); [|simpl; lia].
  destruct c2; intros [= <- <-].
  rewrite Hc, Hc2, !length_app. simpl in *. lia.
Qed.

(** The bound of [receive_tcp_loop] is never reached: any larger one gives
    the same list. *)
Lemma receive_tcp_loop_fuel_enough {message : Type}
    (json_loads : bytes → option message) (callback_raises : message → bool)
    bo fuel1 fuel2 (sock : Stream) :
  length (concat sock) < fuel1 → length (concat sock) < fuel2 →
  receive_tcp_loop_fuel json_loads callback_raises fuel1 bo sock
  = receive_tcp_loop_fuel json_loads callback_raises fuel2 bo sock.
Proof.
  revert fuel2 sock. induction fuel1 as [|fuel1 IH]; intros fuel2 sock H1 H2.
  - lia.
  - destruct fuel2 as [|fuel2]; [lia|]. simpl.
    destruct (recv_frame bo sock) as [[p|] sock'] eqn:E; [|done].
    apply recv_frame_progress in E.
    destruct (json_loads p) as [msg|]; [|done]. f_equal.
    destruct (callback_raises msg); [done|]. apply IH; lia.
Qed.

(** ** Media packets, end to end *)

Lemma decode_utf8_string username :
  utf8_valid_from 0 128 191 (list_byte_of_string username) = true →
  decode_utf8 (list_byte_of_string username) = Some username.
Proof.
  intros H. unfold decode_utf8. rewrite H.
  by rewrite string_of_list_byte_of_string.
Qed.

Lemma receive_media_packet_header bo hdr name (payload : bytes) s :
  struct_pack_I bo (N.of_nat (length name)) = Some hdr →
  decode_utf8 name = Some s →
  receive_media_packet bo (hdr ++ name ++ payload) = Some (s, payload).
Proof.
  intros [Hlen Hun]%struct_pack_unpack Hdec.
  set (datagram := hdr ++ name ++ payload).
  assert ((length datagram <? 4) = false) as Hlt1.
  { apply Nat.ltb_ge. unfold datagram. rewrite length_app. lia. }
  assert (take 4 datagram = hdr) as Htake.
  { unfold datagram. rewrite <- Hlen. apply take_app_length. }
  assert ((length datagram <? 4 + length name) = false) as Hlt2.
  { apply Nat.ltb_ge. unfold datagram. rewrite !length_app. lia. }
  assert (take (length name) (drop 4 datagram) = name) as Hname.
  { unfold datagram. rewrite <- Hlen at 1.
    by rewrite drop_app_length, take_app_length. }
  assert (drop (4 + length name) datagram = payload) as Hpay.
  { unfold datagram. rewrite <- Hlen at 1. rewrite <- drop_drop.
    by rewrite drop_app_length, drop_app_length. }
  unfold receive_media_packet. rewrite Hlt1, Htake, Hun.
  cbv [mbind option_bind]. rewrite Nat2N.id, Hlt2, Hname, Hdec.
  by rewrite Hpay.
Qed.

(** X3. What a client packs with [send_video_packet] or
    [send_audio_packet], a client unpacks with [receive_video_packet] or
    [receive_audio_packet] to the same identity and the same payload (on
    hosts of the same byte order, for an identity that is well-formed
    UTF-8). *)
Theorem media_packet_roundtrip bo username frame_data packet :
  utf8_valid_from 0 128 191 (list_byte_of_string username) = true →
  (send_video_packet bo username frame_data = Some packet →
   receive_video_packet bo packet = Some (username, frame_data))
  ∧ (send_audio_packet bo username frame_data = Some packet →
     receive_audio_packet bo packet = Some (username, frame_data)).
Proof.
  intros Hvalid%decode_utf8_string.
  assert (media_packet bo username frame_data = Some packet →
          receive_media_packet bo packet = Some (username, frame_data)) as H.
  { unfold media_packet. intros H.
    destruct (struct_pack_I bo _) as [hdr|] eqn:E; [|done].
    injection H as <-. by apply receive_media_packet_header. }
  by split.
Qed.

Lemma media_packet_roundtrip_witness :
  utf8_valid_from 0 128 191 (list_byte_of_string "bob") = true
  ∧ send_video_packet little "bob" [xff; xd8]
    = Some [x03; x00; x00; x00; x62; x6f; x62; xff; xd8]
  ∧ receive_video_packet little [x03; x00; x00; x00; x62; x6f; x62; xff; xd8]
    = Some ("bob", [xff; xd8]).
Proof.
  split; [reflexivity|]. split; [reflexivity|].
  exact (proj1 (media_packet_roundtrip little "bob" [xff; xd8] _ eq_refl)
           eq_refl).
Defined.

(** X4. Video and audio from capture to display: the datagram that a
    client sends passes the relay's header checks, goes out unchanged to
    each registered endpoint of the other clients, and every copy unpacks at
    its receiver to the sender's identity and the original payload. *)
Theorem media_end_to_end bo srv username frame_data packet :
  utf8_valid_from 0 128 191 (list_byte_of_string username) = true →
  media_packet bo username frame_data = Some packet →
  (∃ out,
     handle_video_stream bo srv packet = Some out
     ∧ (∀ v info dest, In (v, info) (clients srv) → v ≠ IdStr username →
          video_addr info = Some dest → dest ≠ [] →
          In (UdpSend dest packet) out)
     ∧ ∀ dest d, In (UdpSend dest d) out →
         receive_video_packet bo d = Some (username, frame_data))
  ∧ (∃ out,
       handle_audio_stream bo srv packet = Some out
       ∧ (∀ v info dest, In (v, info) (clients srv) → v ≠ IdStr username →
            audio_addr info = Some dest → dest ≠ [] →
            In (UdpSend dest packet) out)
       ∧ ∀ dest d, In (UdpSend dest d) out →
           receive_audio_packet bo d = Some (username, frame_data)).
Proof.
  intros Hvalid%decode_utf8_string Hpkt. unfold media_packet in Hpkt.
  destruct (struct_pack_I bo _) as [hdr|] eqn:E; [|done].
  injection Hpkt as <-.
  assert (∀ endpoint, ∃ out,
            media_relay bo endpoint srv
              (hdr ++ list_byte_of_string username ++ frame_data) = Some out
            ∧ (∀ v info dest, In (v, info) (clients srv) → v ≠ IdStr username →
                 endpoint info = Some dest → dest ≠ [] →
                 In (UdpSend dest
                       (hdr ++ list_byte_of_string username ++ frame_data)) out)
            ∧ ∀ dest d, In (UdpSend dest d) out →
                receive_media_packet bo d = Some (username, frame_data)) as H.
  { intros endpoint. eexists. split; [by apply media_relay_header|]. split.
    - intros v info dest Hin Hne Hep Hdest. apply media_relay_sends.
      split; [done|]. split; [done|]. by exists v, info.
    - intros dest d (-> & _)%media_relay_sends.
      by apply receive_media_packet_header. }
  split; apply H.
Qed.

Lemma media_end_to_end_witness :
  ∃ out,
    handle_video_stream little sample_media_server
      [x03; x00; x00; x00; x62; x6f; x62; xff; xd8] = Some out
    ∧ (∀ v info dest, In (v, info) (clients sample_media_server) → v ≠ IdStr "bob" →
         video_addr info = Some dest → dest ≠ [] →
         In (UdpSend dest [x03; x00; x00; x00; x62; x6f; x62; xff; xd8]) out)
    ∧ ∀ dest d, In (UdpSend dest d) out →
        receive_video_packet little d = Some ("bob", [xff; xd8]).
Proof.
  exact (proj1 (media_end_to_end little sample_media_server "bob" [xff; xd8]
                  [x03; x00; x00; x00; x62; x6f; x62; xff; xd8]
                  eq_refl eq_refl)).
Defined.

(** ** Joining and leaving *)



Lemma filter_ne_absent (l : list ident) k :
  ident_key k ∉ ident_key <$> l →
  filter (λ k', ident_key k' ≠ ident_key k) l = l.
Proof.
  induction l as [|k0 l IH]; [done|]. simpl.
  intros [Hne Hl]%not_elem_of_cons. rewrite filter_cons.
  rewrite decide_True by congruence. by rewrite IH.
Qed.

Lemma dict_keys_del_filter {V} (d : list (ident * V)) k :
  NoDup (ident_key <$> dict_keys d) →
  dict_keys (dict_del d k)
  = filter (λ k', ident_key k' ≠ ident_key k) (dict_keys d).
Proof.
  unfold dict_keys. induction d as [|[k0 v0] d IH]; simpl; [done|].
  intros [Hnot Hnd]%NoDup_cons. rewrite filter_cons.
  destruct (py_eq k0 k) eqn:E.
  - apply py_eq_true in E.
    rewrite decide_False by (intros H; by apply H).
    rewrite filter_ne_absent; [done|]. by rewrite <- E.
  - apply py_eq_false in E. rewrite decide_True by done.
    simpl. f_equal. by apply IH.
Qed.



(** X6. Teardown of a handler whose identity is truthy, on a registry with
    distinct identities: the identity leaves the presence order, which
    otherwise keeps its order, no other entry and nothing of the file store
    changes, and every remaining client (but one registered under [None],
    which no broadcast reaches) is sent a [user_left] that carries the
    refreshed presence list. *)
Theorem teardown_departure srv username :
  py_truthy (ident_json username) = true →
  NoDup (ident_key <$> dict_keys (clients srv)) →
  ∃ srv' out,
    teardown srv username = (srv', out)
    ∧ dict_keys (clients srv')
      = filter (λ k, ident_key k ≠ ident_key username) (dict_keys (clients srv))
    ∧ dict_get (clients srv') username = None
    ∧ (∀ v, ident_key v ≠ ident_key username →
         dict_get (clients srv') v = dict_get (clients srv) v)
    ∧ shared_files srv' = shared_files srv
    ∧ ∀ v info, In (v, info) (clients srv') → v ≠ IdNull →
        In (TcpSend (tcp_socket info)
              (JObj [("type", JStr "user_left");
                     ("username", ident_json username);
                     ("users",
                      JArr (map ident_json
                              (filter (λ k, ident_key k ≠ ident_key username)
                                 (dict_keys (clients srv)))))])) out.
Proof.
  intros Hne Hnd.
  destruct (teardown srv username) as [srv' out] eqn:Ht.
  exists srv', out. split; [done|].
  pose proof (teardown_state _ _ _ _ Hne Ht) as (Hc & _ & Hf).
  assert (dict_keys (clients srv')
          = filter (λ k, ident_key k ≠ ident_key username)
              (dict_keys (clients srv))) as Hkeys.
  { rewrite Hc. by apply dict_keys_del_filter. }
  split; [done|]. split; [rewrite Hc; by apply dict_get_del_eq|].
  split; [intros v Hv; rewrite Hc; apply dict_get_del_ne; congruence|].
  split; [done|].
  intros v info Hv Hnn.
  assert (In (v, info) (audience srv')) as Haud.
  { unfold audience. apply filter_In. split; [done|]. simpl.
    apply negb_true_iff, py_eq_false. by destruct v as [|[]| |]. }
  rewrite teardown_truthy in Ht by done.
  destruct (py_eq (presenter srv) username);
    injection Ht as Hsrv <-; rewrite <- Hsrv in Haud, Hkeys;
    rewrite ?in_app_iff, !broadcast_message_all; [right|];
    apply in_map_iff; exists (v, info); (split; [|done]);
    unfold users; simpl in *; by rewrite Hkeys.
Qed.

Lemma teardown_departure_witness :
  ∃ srv' out,
    teardown sample_server (IdStr "bob") = (srv', out)
    ∧ dict_keys (clients srv')
      = filter (λ k, ident_key k ≠ ident_key (IdStr "bob"))
          (dict_keys (clients sample_server))
    ∧ dict_get (clients srv') (IdStr "bob") = None
    ∧ (∀ v, ident_key v ≠ ident_key (IdStr "bob") →
         dict_get (clients srv') v = dict_get (clients sample_server) v)
    ∧ shared_files srv' = shared_files sample_server
    ∧ ∀ v info, In (v, info) (clients srv') → v ≠ IdNull →
        In (TcpSend (tcp_socket info)
              (JObj [("type", JStr "user_left");
                     ("username", ident_json (IdStr "bob"));
                     ("users",
                      JArr (map ident_json
                              (filter
                                 (λ k, ident_key k ≠ ident_key (IdStr "bob"))
                                 (dict_keys (clients sample_server)))))])) out.
Proof.
  apply (teardown_departure sample_server (IdStr "bob")); [reflexivity|].
  apply (bool_decide_unpack
           (NoDup (ident_key <$> dict_keys (clients sample_server)))).
  reflexivity.
Defined.

Example teardown_departure_sample :
  teardown sample_server (IdStr "bob")
  = ({| clients := [(IdStr "Alice", sample_info 1)]; presenter := IdNull;
        shared_files := ∅ |},
     [TcpSend 1 (JObj [("type", JStr "user_left"); ("username", JStr "bob");
                       ("users", JArr [JStr "Alice"])])]).
Proof. reflexivity. Qed.

(** ** Presence *)

Section presence.
Context {PS : PyStr}.

(** X7. In runs in which every registration names a truthy identity that is
    not yet registered, the presence list is exactly the set of identities
    that have a live handler: no identity is listed twice, no two entries
    share a socket, every listed identity has a live handler on the socket
    of its entry, every live handler is listed, and every such identity is
    truthy, so that its handler will clean up after itself. *)
Theorem presence_matches_handlers sys :
  reachable fresh_registration sys →
  NoDup (ident_key <$> dict_keys (clients (server sys)))
  ∧ NoDup (sockets (clients (server sys)))
  ∧ (∀ u, In u (dict_keys (clients (server sys)))
          ↔ ∃ sock, handlers sys !! sock = Some u)
  ∧ (∀ u info, In (u, info) (clients (server sys)) →
               handlers sys !! tcp_socket info = Some u)
  ∧ (∀ sock u, handlers sys !! sock = Some u →
               py_truthy (ident_json u) = true
               ∧ ∃ info, dict_get (clients (server sys)) u = Some info
                         ∧ tcp_socket info = sock).
Proof.
  intros Hinv%reachable_inv.
  split; [apply (inv_nodup _ Hinv)|]. split; [by apply sys_inv_sockets|].
  split; [|split; [apply (inv_entry_handler _ Hinv)|]].
  - intros u. split.
    + unfold dict_keys. intros ([u' info] & <- & Hin)%in_map_iff.
      exists (tcp_socket info). by apply (inv_entry_handler _ Hinv).
    + intros [sock Hs].
      destruct (inv_handler_entry _ Hinv _ _ Hs) as (i & Hi & _).
      unfold dict_keys. apply in_map_iff. by exists (u, i).
  - intros sock u Hs. split; [by eapply (inv_truthy _ Hinv)|].
    by apply sys_inv_dict_get.
Qed.
End presence.

Section presence_examples.
#[local] Existing Instance ascii_str.

Lemma presence_matches_handlers_witness :
  NoDup (ident_key <$> dict_keys (clients (server presenting_system)))
  ∧ NoDup (sockets (clients (server presenting_system)))
  ∧ (∀ u, In u (dict_keys (clients (server presenting_system)))
          ↔ ∃ sock, handlers presenting_system !! sock = Some u)
  ∧ (∀ u info, In (u, info) (clients (server presenting_system)) →
               handlers presenting_system !! tcp_socket info = Some u)
  ∧ (∀ sock u, handlers presenting_system !! sock = Some u →
               py_truthy (ident_json u) = true
               ∧ ∃ info,
                   dict_get (clients (server presenting_system)) u = Some info
                   ∧ tcp_socket info = sock).
Proof.
  exact (presence_matches_handlers presenting_system
           presenting_system_reachable).
Defined.
End presence_examples.

(** ** What a message cannot do *)

Lemma sockets_set (d : list (ident * ClientInfo)) k i i' :
  dict_get d k = Some i → tcp_socket i' = tcp_socket i →
  sockets (dict_set d k i') = sockets d.
Proof.
  unfold sockets. induction d as [|[k0 v0] d IH]; simpl; [done|].
  destruct (py_eq k0 k) eqn:E; simpl.
  - intros [= ->] Hs. by rewrite Hs.
  - intros Hi Hs. f_equal. by apply IH.
Qed.

Lemma sends_within_nil srv : sends_within srv [].
Proof. by intros sock message []. Qed.

Lemma sends_within_app srv out1 out2 :
  sends_within srv out1 → sends_within srv out2 → sends_within srv (out1 ++ out2).
Proof. intros H1 H2 sock message [?|?]%in_app_iff; eauto. Qed.

Lemma sends_within_broadcast srv srv0 message exclude :
  clients srv0 = clients srv →
  sends_within srv (broadcast_message srv0 message exclude).
Proof.
  intros Hc sock m. unfold broadcast_message, sockets. rewrite Hc, in_flat_map.
  intros ([k v] & Hin & Hsend).
  destruct (negb (py_eq k exclude)); [|done].
  destruct Hsend as [[= <- <-]|[]]. apply in_map_iff. by exists (k, v).
Qed.

Lemma sends_within_send_to_user srv srv0 username message :
  clients srv0 = clients srv →
  sends_within srv (send_to_user srv0 username message).
Proof.
  intros Hc sock m. unfold send_to_user, sockets. rewrite Hc.
  destruct (dict_get (clients srv) username) as [info|] eqn:E; [|done].
  intros [[= <- <-]|[]]. apply in_map_iff.
  destruct (dict_get_Some_In _ _ _ E) as (k0 & Hin & _). by exists (k0, info).
Qed.

Create HintDb sends.

#[local] Hint Resolve sends_within_nil sends_within_app sends_within_broadcast
  sends_within_send_to_user : sends.

Section registry.
Context {PS : PyStr}.

(** X8. No control message changes who is registered: after
    [process_message] the presence order and the socket of every entry are
    what they were, and the entry of every identity other than the sender is
    untouched. *)
Theorem process_message_keeps_registry now srv username msg srv' out :
  process_message now srv username msg = Some (srv', out) →
  dict_keys (clients srv') = dict_keys (clients srv)
  ∧ sockets (clients srv') = sockets (clients srv)
  ∧ ∀ v, ident_key v ≠ ident_key username →
         dict_get (clients srv') v = dict_get (clients srv) v.
Proof.
  intros [[->|(i & i' & Hi & Hs & ->)] _]%process_message_effect; [done|].
  split; [by apply dict_keys_set_present|].
  split; [by eapply sockets_set|].
  intros v Hv. apply dict_get_set_ne. congruence.
Qed.

(** X9. Whatever a control message makes the server send goes to the socket
    of a registry entry: [process_message] never writes to a connection
    that is not registered. *)
Theorem process_message_sends_to_registered now srv username msg srv' out :
  process_message now srv username msg = Some (srv', out) →
  sends_within srv out.
Proof.
  unfold process_message. intros H.
  destruct msg as [| | | | |m]; try done.
  pm_cases; auto 6 with sends.
Qed.
End registry.

Section registry_examples.
#[local] Existing Instance ascii_str.

Lemma process_message_keeps_registry_witness :
  ∃ srv',
    process_message sample_now sample_server (IdStr "bob")
      (JObj [("type", JStr "video_register");
             ("address", JArr [JStr "10.0.0.2"; JInt 6002])])
    = Some (srv', [])
    ∧ dict_keys (clients srv') = dict_keys (clients sample_server)
    ∧ sockets (clients srv') = sockets (clients sample_server)
    ∧ ∀ v, ident_key v ≠ ident_key (IdStr "bob") →
           dict_get (clients srv') v = dict_get (clients sample_server) v.
Proof.
  eexists. split; [reflexivity|].
  apply (process_message_keeps_registry sample_now sample_server (IdStr "bob")
           (JObj [("type", JStr "video_register");
                  ("address", JArr [JStr "10.0.0.2"; JInt 6002])]) _ []).
  reflexivity.
Defined.

Lemma process_message_sends_to_registered_witness :
  sends_within sample_server
    [TcpSend 1 (JObj [("type", JStr "chat"); ("username", JStr "Alice");
                      ("message", JStr "hi"); ("timestamp", JStr "09:03:07")]);
     TcpSend 2 (JObj [("type", JStr "chat"); ("username", JStr "Alice");
                      ("message", JStr "hi"); ("timestamp", JStr "09:03:07")])].
Proof.
  apply (process_message_sends_to_registered sample_now sample_server
           (IdStr "Alice")
           (JObj [("type", JStr "chat"); ("message", JStr "hi")])
           sample_server).
  reflexivity.
Defined.
End registry_examples.

(** ** Media endpoints *)

Section endpoints.
Context {PS : PyStr}.

Lemma process_message_video_register now srv username m :
  obj_get m "type" = Some (JStr "video_register") →
  process_message now srv username (JObj m) =
  match dict_get (clients srv) username with
  | Some info =>
      a ← obj_get m "address" ≫= py_tuple;
      Some (set_clients srv
              (dict_set (clients srv) username (set_video_addr info a)), [])
  | None => Some (srv, [])
  end.
Proof. intros H. unfold process_message. rewrite H. reflexivity. Qed.

Lemma process_message_audio_register now srv username m :
  obj_get m "type" = Some (JStr "audio_register") →
  process_message now srv username (JObj m) =
  match dict_get (clients srv) username with
  | Some info =>
      a ← obj_get m "address" ≫= py_tuple;
      Some (set_clients srv
              (dict_set (clients srv) username (set_audio_addr info a)), [])
  | None => Some (srv, [])
  end.
Proof. intros H. unfold process_message. rewrite H. reflexivity. Qed.

(** X10. Registering a media endpoint and then relaying: after a registered
    client's [video_register] ([audio_register]) with a non-empty address,
    nothing has been sent, only that client's video (audio) endpoint has
    changed, and every well-formed video (audio) datagram of any other
    identity is forwarded to the new address. *)
Theorem endpoint_register_then_relay now srv username info m addr dest :
  dict_get (clients srv) username = Some info →
  obj_get m "address" = Some addr → py_tuple addr = Some dest → dest ≠ [] →
  (obj_get m "type" = Some (JStr "video_register") →
   ∃ srv',
     process_message now srv username (JObj m) = Some (srv', [])
     ∧ dict_get (clients srv') username = Some (set_video_addr info dest)
     ∧ ∀ bo sender frame_data packet,
         IdStr sender ≠ username →
         utf8_valid_from 0 128 191 (list_byte_of_string sender) = true →
         send_video_packet bo sender frame_data = Some packet →
         ∃ out, handle_video_stream bo srv' packet = Some out
                ∧ In (UdpSend dest packet) out)
  ∧ (obj_get m "type" = Some (JStr "audio_register") →
     ∃ srv',
       process_message now srv username (JObj m) = Some (srv', [])
       ∧ dict_get (clients srv') username = Some (set_audio_addr info dest)
       ∧ ∀ bo sender frame_data packet,
           IdStr sender ≠ username →
           utf8_valid_from 0 128 191 (list_byte_of_string sender) = true →
           send_audio_packet bo sender frame_data = Some packet →
           ∃ out, handle_audio_stream bo srv' packet = Some out
                  ∧ In (UdpSend dest packet) out).
Proof.
  intros Hinfo Haddr Htuple Hdest.
  assert (∀ endpoint info' srv',
            endpoint info' = Some dest →
            dict_get (clients srv') username = Some info' →
            ∀ bo sender frame_data packet,
              IdStr sender ≠ username →
              utf8_valid_from 0 128 191 (list_byte_of_string sender) = true →
              media_packet bo sender frame_data = Some packet →
              ∃ out, media_relay bo endpoint srv' packet = Some out
                     ∧ In (UdpSend dest packet) out) as Hrelay.
  { intros endpoint info' srv' Hep Hget bo sender frame_data packet
      Hne Hvalid%decode_utf8_string Hpkt.
    unfold media_packet in Hpkt.
    destruct (struct_pack_I bo _) as [hdr|] eqn:E; [|done].
    injection Hpkt as <-. eexists. split; [by apply media_relay_header|].
    apply media_relay_sends. split; [done|]. split; [done|].
    destruct (dict_get_Some_In _ _ _ Hget) as (k0 & Hin & Hk).
    exists k0, info'. split; [done|]. split; [|done].
    intros ->. apply Hne. symmetry. apply py_eq_IdStr, py_eq_true. by symmetry. }
  split; intros Ht.
  - eexists. split; [|split].
    + rewrite process_message_video_register by done.
      rewrite Hinfo, Haddr. simpl. by rewrite Htuple.
    + simpl. apply dict_get_set_eq.
    + apply (Hrelay video_addr (set_video_addr info dest)); [done|].
      simpl. apply dict_get_set_eq.
  - eexists. split; [|split].
    + rewrite process_message_audio_register by done.
      rewrite Hinfo, Haddr. simpl. by rewrite Htuple.
    + simpl. apply dict_get_set_eq.
    + apply (Hrelay audio_addr (set_audio_addr info dest)); [done|].
      simpl. apply dict_get_set_eq.
Qed.

(** ** The presenter slot as a state machine *)


End endpoints.

Section endpoints_examples.
#[local] Existing Instance ascii_str.

Lemma endpoint_register_then_relay_witness :
  ∃ srv',
    process_message sample_now sample_server (IdStr "Alice")
      (JObj [("type", JStr "video_register");
             ("address", JArr [JStr "10.0.0.1"; JInt 6001])])
    = Some (srv', [])
    ∧ dict_get (clients srv') (IdStr "Alice")
      = Some (set_video_addr (sample_info 1) [JStr "10.0.0.1"; JInt 6001])
    ∧ ∀ bo sender frame_data packet,
        IdStr sender ≠ IdStr "Alice" →
        utf8_valid_from 0 128 191 (list_byte_of_string sender) = true →
        send_video_packet bo sender frame_data = Some packet →
        ∃ out, handle_video_stream bo srv' packet = Some out
               ∧ In (UdpSend [JStr "10.0.0.1"; JInt 6001] packet) out.
Proof.
  apply (proj1 (endpoint_register_then_relay sample_now sample_server
                  (IdStr "Alice") (sample_info 1)
                  [("type", JStr "video_register");
                   ("address", JArr [JStr "10.0.0.1"; JInt 6001])]
                  (JArr [JStr "10.0.0.1"; JInt 6001])
                  [JStr "10.0.0.1"; JInt 6001]
                  eq_refl eq_refl eq_refl ltac:(discriminate))).
  reflexivity.
Defined.


End endpoints_examples.


(** ** The file store only grows *)

Section sessions.
Context {PS : PyStr}.

Lemma process_message_files_kept now srv username msg srv' out key :
  process_message now srv username msg = Some (srv', out) →
  is_Some (shared_files srv !! key) → is_Some (shared_files srv' !! key).
Proof.
  unfold process_message. intros H Hkey.
  destruct msg as [| | | | |m]; try done.
  pm_cases; simpl; try done.
  rewrite lookup_insert. by case_decide.
Qed.

Lemma step_files_kept sys ev sys' out key :
  step sys ev = Some (sys', out) →
  is_Some (shared_files (server sys) !! key) →
  is_Some (shared_files (server sys') !! key).
Proof.
  intros Hstep Hkey. destruct ev as [sock addr data|sock msg now].
  - apply step_connect_cases in Hstep
      as [_ [(_ & -> & _)|(username & _ & Hreg & _)]]; [done|].
    unfold register in Hreg. by injection Hreg as <- _.
  - apply step_frame_cases in Hstep
      as (username & _ & [(m & -> & Hpm & _)|[Ht _]]).
    + by eapply process_message_files_kept.
    + pose proof (teardown_files (server sys) username) as Hf.
      rewrite Ht in Hf. simpl in Hf. by rewrite Hf.
Qed.

(** X13. Nothing is ever removed from the file store: an id that is stored
    stays stored through every sequence of registrations, messages and
    disconnections, and its record stays the same one unless a later upload
    uses the same id. *)
Theorem file_never_evicted evs sys sys' out key info :
  shared_files (server sys) !! key = Some info →
  run sys evs = Some (sys', out) →
  is_Some (shared_files (server sys') !! key)
  ∧ (Forall (λ ev, uploads key ev = false) evs →
     shared_files (server sys') !! key = Some info).
Proof.
  intros Hkey Hrun. split.
  - assert (is_Some (shared_files (server sys) !! key)) as Hs by (by exists info).
    clear Hkey. revert sys out Hs Hrun.
    induction evs as [|ev evs IH]; simpl; intros sys out Hs Hrun.
    + by injection Hrun as <- <-.
    + destruct (step sys ev) as [[sys1 out1]|] eqn:E; [|done]. simpl in Hrun.
      destruct (run sys1 evs) as [[sys2 out2]|] eqn:E2; [|done].
      injection Hrun as <- <-. eapply IH; [|exact E2].
      by eapply step_files_kept.
  - intros Hevs. by rewrite (run_files _ _ _ _ _ Hevs Hrun).
Qed.

(** ** How a session ends *)

Lemma teardown_user_left srv username srv' out :
  py_truthy (ident_json username) = true → teardown srv username = (srv', out) →
  ∀ v info, In (v, info) (audience srv') →
    In (TcpSend (tcp_socket info) (msg_user_left username (users srv'))) out.
Proof.
  intros Hne Ht v info Hv.
  rewrite teardown_truthy in Ht by done.
  destruct (py_eq (presenter srv) username);
    injection Ht as Hsrv <-; rewrite <- Hsrv in Hv |- *;
    rewrite ?in_app_iff, !broadcast_message_all; [right|];
    apply in_map_iff; by exists (v, info).
Qed.

(** X14. A session ends on the first frame that cannot be handled: when
    the read fails, or the decoded value is falsy, or [process_message]
    raises, the handler stops, its identity leaves the registry, the file
    store is kept, and every remaining client is sent a [user_left] naming
    it with the refreshed presence list (in runs in which every
    registration names a truthy identity that is not yet registered). *)
Theorem session_ends_on_bad_frame sys sock username msg now :
  reachable fresh_registration sys →
  handlers sys !! sock = Some username →
  (msg = None
   ∨ ∃ m, msg = Some m
          ∧ (py_truthy m = false
             ∨ process_message now (server sys) username m = None)) →
  ∃ sys' out,
    step sys (Frame sock msg now) = Some (sys', out)
    ∧ handlers sys' !! sock = None
    ∧ dict_get (clients (server sys')) username = None
    ∧ ¬ In username (dict_keys (clients (server sys')))
    ∧ shared_files (server sys') = shared_files (server sys)
    ∧ ∀ v info, In (v, info) (clients (server sys')) →
        In (TcpSend (tcp_socket info)
              (JObj [("type", JStr "user_left");
                     ("username", ident_json username);
                     ("users",
                      JArr (map ident_json
                              (dict_keys (clients (server sys')))))])) out.
Proof.
  intros Hreach Hsock Hbad. pose proof (reachable_inv _ Hreach) as Hinv.
  destruct (teardown (server sys) username) as [srv' out] eqn:Ht.
  assert (py_truthy (ident_json username) = true) as Hne
    by (by eapply (inv_truthy _ Hinv)).
  assert (step sys (Frame sock msg now)
          = Some ({| server := srv'; handlers := delete sock (handlers sys) |},
                  out)) as Hstep.
  { unfold step. rewrite Hsock. cbn -[py_truthy process_message teardown].
    rewrite Ht. destruct Hbad as [->|(m & -> & [Hf|Hr])]; [done|..].
    - by rewrite Hf.
    - rewrite Hr. by destruct (py_truthy m). }
  assert (sys_inv {| server := srv'; handlers := delete sock (handlers sys) |})
    as Hinv'.
  { eapply step_inv; [exact Hinv| |exact Hstep]. exact I. }
  exists {| server := srv'; handlers := delete sock (handlers sys) |}, out.
  split; [done|]. split; [apply lookup_delete_eq|]. simpl.
  destruct (teardown_state _ _ _ _ Hne Ht) as (Hc & _ & Hf).
  assert (dict_get (clients srv') username = None) as Hnone.
  { rewrite Hc. apply dict_get_del_eq, (inv_nodup _ Hinv). }
  split; [done|]. split; [|split; [done|]].
  - intros Hin%list_elem_of_In. apply dict_get_None in Hnone. apply Hnone.
    apply list_elem_of_fmap. by exists username.
  - intros v info Hv.
    apply (teardown_user_left (server sys) username srv' out Hne Ht v info).
    pose proof (sys_inv_audience _ Hinv') as Haud. simpl in Haud.
    by rewrite Haud.
Qed.

(** X15. The requests that raise, and so end the session of their sender: a
    frame that is not an object; a [chat] without [message]; a registered
    client's [video_register] or [audio_register] whose [address] is
    missing or not iterable; a [file_upload] that lacks one of [file_id],
    [filename], [size], [data] or whose id is unhashable; a [file_download]
    whose id is missing or unhashable; the presenter's [screen_frame]
    without [frame_data]; a [private_chat] whose [to] is a non-empty value
    that is not a string. *)
Theorem process_message_raises now srv username m :
  (∀ v, (∀ kvs, v ≠ JObj kvs) → process_message now srv username v = None)
  ∧ (obj_get m "type" = Some (JStr "chat") → obj_get m "message" = None →
     process_message now srv username (JObj m) = None)
  ∧ (obj_get m "type" = Some (JStr "video_register")
     ∨ obj_get m "type" = Some (JStr "audio_register") →
     is_Some (dict_get (clients srv) username) →
     obj_get m "address" ≫= py_tuple = None →
     process_message now srv username (JObj m) = None)
  ∧ (obj_get m "type" = Some (JStr "file_upload") →
     obj_get m "file_id" ≫= dict_key = None ∨ obj_get m "filename" = None
     ∨ obj_get m "size" = None ∨ obj_get m "data" = None →
     process_message now srv username (JObj m) = None)
  ∧ (obj_get m "type" = Some (JStr "file_download") →
     obj_get m "file_id" ≫= dict_key = None →
     process_message now srv username (JObj m) = None)
  ∧ (obj_get m "type" = Some (JStr "screen_frame") →
     ident_key (presenter srv) = ident_key username →
     obj_get m "frame_data" = None →
     process_message now srv username (JObj m) = None)
  ∧ (obj_get m "type" = Some (JStr "private_chat") →
     (∃ v, obj_get m "to" = Some v ∧ py_truthy v = true ∧ ∀ s, v ≠ JStr s) →
     process_message now srv username (JObj m) = None)
  ∧ (obj_get m "type" = Some (JStr "private_chat") →
     ∀ to_user, get_to_user m = Some to_user →
       to_user ≠ "" → IdStr to_user ≠ username →
       lookup_case_insensitive (dict_keys (clients srv)) to_user = None →
       process_message now srv username (JObj m) = None).
Proof.
  repeat split.
  - intros v Hv. destruct v; try done. by destruct (Hv kvs).
  - intros Ht Hm. rewrite process_message_chat by done. by rewrite Hm.
  - intros [Ht|Ht] [info Hinfo] Ha.
    + rewrite process_message_video_register by done.
      rewrite Hinfo. by rewrite Ha.
    + rewrite process_message_audio_register by done.
      rewrite Hinfo. by rewrite Ha.
  - intros Ht H. rewrite process_message_file_upload by done.
    destruct (obj_get m "file_id") as [fid|]; [|done]. simpl in *.
    destruct (obj_get m "filename"); [|done]. simpl.
    destruct (obj_get m "size"); [|done]. simpl.
    destruct (obj_get m "data"); [|done]. simpl.
    destruct H as [H|[H|[H|H]]]; try done. by rewrite H.
  - intros Ht H. rewrite process_message_file_download by done.
    destruct (obj_get m "file_id") as [fid|]; [|done]. simpl in *.
    by rewrite H.
  - intros Ht Hp Hfd. rewrite process_message_screen_frame by done.
    rewrite (proj2 (py_eq_true _ _) Hp). by rewrite Hfd.
  - intros Ht (v & Hto & Htruthy & Hv).
    rewrite process_message_private_chat by done.
    unfold get_to_user. rewrite Hto, Htruthy.
    destruct v; try done. by destruct (Hv s).
  - intros Ht to_user Hto Hne Hself Hlook.
    rewrite process_message_private_chat by done. rewrite Hto. simpl.
    rewrite !bool_decide_eq_false_2 by done. simpl. by rewrite Hlook.
Qed.
End sessions.

Section sessions_examples.
#[local] Existing Instance ascii_str.

Lemma session_ends_on_bad_frame_witness :
  ∃ sys' out,
    step presenting_system
      (Frame 2 (Some (JObj [("type", JStr "chat")])) sample_now)
    = Some (sys', out)
    ∧ handlers sys' !! 2 = None
    ∧ dict_get (clients (server sys')) (IdStr "bob") = None
    ∧ ¬ In (IdStr "bob") (dict_keys (clients (server sys')))
    ∧ shared_files (server sys') = shared_files (server presenting_system)
    ∧ ∀ v info, In (v, info) (clients (server sys')) →
        In (TcpSend (tcp_socket info)
              (JObj [("type", JStr "user_left");
                     ("username", ident_json (IdStr "bob"));
                     ("users",
                      JArr (map ident_json
                              (dict_keys (clients (server sys')))))])) out.
Proof.
  apply (session_ends_on_bad_frame presenting_system 2 (IdStr "bob")).
  - exact presenting_system_reachable.
  - reflexivity.
  - right. eexists. split; [reflexivity|]. right. reflexivity.
Defined.

Example session_ends_on_bad_frame_sample :
  step presenting_system
    (Frame 2 (Some (JObj [("type", JStr "chat")])) sample_now)
  = Some ({| server :=
               {| clients := [(IdStr "Alice", sample_info 1)];
                  presenter := IdStr "Alice"; shared_files := ∅ |};
             handlers := delete 2 (handlers presenting_system) |},
          [TcpSend 1 (JObj [("type", JStr "user_left");
                            ("username", JStr "bob");
                            ("users", JArr [JStr "Alice"])])]).
Proof. reflexivity. Qed.
End sessions_examples.

Section store_examples.
#[local] Existing Instance ascii_str.

Lemma file_never_evicted_witness :
  shared_files (server uploaded_system) !! Some (inl "f-1") = Some sample_file
  ∧ run uploaded_system [Frame 1 None sample_now; Frame 2 None sample_now]
    = Some (emptied_system,
            [TcpSend 2 (JObj [("type", JStr "user_left");
                              ("username", JStr "Alice");
                              ("users", JArr [JStr "bob"])])])
  ∧ is_Some (shared_files (server emptied_system) !! Some (inl "f-1")).
Proof.
  split; [reflexivity|]. split; [reflexivity|].
  refine (proj1 (file_never_evicted
                   [Frame 1 None sample_now; Frame 2 None sample_now]
                   uploaded_system emptied_system
                   [TcpSend 2 (JObj [("type", JStr "user_left");
                                     ("username", JStr "Alice");
                                     ("users", JArr [JStr "bob"])])]
                   (Some (inl "f-1")) sample_file _ _)); reflexivity.
Defined.
End store_examples.

(** ** Private messages, from the server to the screen *)

Section display.
Context {PS : PyStr}.




(** X17. Identities that differ only by case: the recipient of a private
    message resolves to the first identity in registration order that
    matches the requested name up to [str.lower], whatever is registered
    after it, even an identity that matches the name exactly. *)
Theorem lookup_first_match srv to_user before key after :
  dict_keys (clients srv) = map IdStr before ++ IdStr key :: after →
  str_lower key = str_lower to_user →
  (∀ k, In k before → str_lower k ≠ str_lower to_user) →
  lookup_case_insensitive (dict_keys (clients srv)) to_user = Some (Some key).
Proof.
  intros -> Hkey Hbefore.
  induction before as [|k before IH]; simpl.
  - by rewrite bool_decide_eq_true_2.
  - rewrite bool_decide_eq_false_2 by (apply Hbefore; by left).
    apply IH. intros k' Hk'. apply Hbefore. by right.
Qed.
End display.

Section display_examples.
#[local] Existing Instance ascii_str.


Lemma lookup_first_match_witness :
  lookup_case_insensitive
    (dict_keys
       (clients
          {| clients := [(IdStr "bob", sample_info 2);
                         (IdStr "Alice", sample_info 1);
                         (IdStr "ALICE", sample_info 4)];
             presenter := IdNull; shared_files := ∅ |})) "ALICE"
  = Some (Some "Alice").
Proof.
  apply (lookup_first_match _ "ALICE" ["bob"] "Alice" [IdStr "ALICE"]);
    [reflexivity|reflexivity|].
  intros k [<-|[]]. discriminate.
Defined.
End display_examples.
